(** * Colony status derivation of [scripts/esi_query.py]

    A shallow embedding of [parse_utc_timestamp], [resolve_pi_product_name],
    [estimate_storage_fill_pct] and [parse_pi_status], together with the
    Python values they inspect, and the properties of the colony status
    report that follow from the code.

    Conventions of the embedding:
    - a Python value coming out of [json.loads] is a [pyval]; JSON objects
      are finite maps with string keys (only [get] and [in] are used on them);
    - a Python [float] is an IEEE-754 binary64 number, given by the
      [spec_float] operations of the Standard Library at precision 53;
    - a call that can raise returns a [result]; the exception travels through
      the monadic bind exactly as it unwinds the Python frames;
    - the wall clock read by [datetime.now] is the explicit argument [now],
      an instant in microseconds;
    - what the Python runtime supplies and the script merely calls
      ([datetime.fromisoformat] followed by [astimezone], the [repr] of
      floats and of containers) is the interface [PyRuntime]. *)

From Stdlib Require Import ZArith String Ascii List Bool Lia.
From Stdlib Require Import Floats.SpecFloat.
From stdpp Require Import gmap strings list fin_maps pretty sorting.

Set Warnings "-register-all".

Local Open Scope Z_scope.

(** ** Exceptions and results *)

Inductive exn : Type :=
| TypeError
| AttributeError
| OverflowError
| ValueError.

Inductive result (A : Type) : Type :=
| Ok (a : A)
| Raise (e : exn).

Arguments Ok {A} a.
Arguments Raise {A} e.

#[global] Instance result_bind : MBind result :=
  fun A B (k : A -> result B) (r : result A) =>
    match r with
    | Ok a => k a
    | Raise e => Raise e
    end.

#[global] Instance result_ret : MRet result := fun A a => Ok a.

Definition raises {A : Type} (r : result A) : bool :=
  match r with
  | Ok _ => false
  | Raise _ => true
  end.

(** ** Binary64 arithmetic, as Python's [float] uses it *)

Module F64.

Definition prec : Z := 53.
Definition emax : Z := 1024.

Definition add : spec_float -> spec_float -> spec_float := SFadd prec emax.
Definition mul : spec_float -> spec_float -> spec_float := SFmul prec emax.
Definition div : spec_float -> spec_float -> spec_float := SFdiv prec emax.
Definition ltb : spec_float -> spec_float -> bool := SFltb.
Definition leb : spec_float -> spec_float -> bool := SFleb.

(** An integer as a float datum with an unnormalised mantissa: the exact
    operand handed to a correctly rounded operation. *)
Definition raw (z : Z) : spec_float :=
  match z with
  | Z0 => S754_zero false
  | Zpos p => S754_finite false p 0
  | Zneg p => S754_finite true p 0
  end.

(** [float(z)] for an [int]: nearest binary64, ties to even; the result is
    an infinity exactly when Python raises [OverflowError]. *)
Definition of_Z (z : Z) : spec_float := binary_normalize prec emax z 0 false.

(** [a / b] on two [int]s: the correctly rounded quotient. *)
Definition int_truediv (a b : Z) : spec_float := div (raw a) (raw b).

(** Nearest integer to [m * 2^e] for [0 <= m], ties to even. *)
Definition rne_scaled (m e : Z) : Z :=
  match e with
  | Zneg p =>
      let d := 2 ^ Zpos p in
      let q := m / d in
      match 2 * (m mod d) ?= d with
      | Lt => q
      | Gt => q + 1
      | Eq => if Z.even q then q else q + 1
      end
  | _ => m * 2 ^ e
  end.

(** The float nearest to the decimal [n / 100], [0 <= n], with sign [s]. *)
Definition hundredths (s : bool) (n : Z) : spec_float :=
  match n with
  | Zpos p => div (S754_finite s p 0) (raw 100)
  | _ => S754_zero s
  end.

(** [round(x, 2)]: the exact value of [x] is rounded to hundredths, ties
    to even, and the decimal obtained is read back as the nearest float;
    infinities and NaN are returned unchanged. *)
Definition round2 (x : spec_float) : spec_float :=
  match x with
  | S754_finite s m e => hundredths s (rne_scaled (Zpos m * 100) e)
  | _ => x
  end.

(** The integer a float is equal to, when there is one: the key under
    which a float hashes into a dictionary keyed by [int]s. *)
Definition integral (x : spec_float) : option Z :=
  match x with
  | S754_zero _ => Some 0
  | S754_finite s m (Zneg p) =>
      if Zpos m mod 2 ^ Zpos p =? 0
      then Some (cond_Zopp s (Zpos m / 2 ^ Zpos p))
      else None
  | S754_finite s m e => Some (cond_Zopp s (Zpos m * 2 ^ e))
  | _ => None
  end.

Definition zero : spec_float := S754_zero false.
Definition c6 : spec_float := Eval vm_compute in of_Z 6.
Definition c80 : spec_float := Eval vm_compute in of_Z 80.
Definition c100 : spec_float := Eval vm_compute in of_Z 100.
Definition c3600 : spec_float := Eval vm_compute in of_Z 3600.

(** [min(a, b)] and the test [b > a] of Python on two floats. *)
Definition py_min (a b : spec_float) : spec_float := if ltb b a then b else a.

End F64.

(** ** Python values *)

Inductive pyval : Type :=
| PNone
| PBool (b : bool)
| PInt (z : Z)
| PFloat (f : spec_float)
| PStr (s : string)
| PList (l : list pyval)
| PDict (d : gmap string pyval).

Abbreviation pydict := (gmap string pyval).

(** [d.get(k)]: [None] when the key is missing. *)
Definition dict_get (k : string) (d : pydict) : pyval := default PNone (d !! k).

(** [d.get(k, dflt)]. *)
Definition dict_get_default (k : string) (dflt : pyval) (d : pydict) : pyval :=
  default dflt (d !! k).

(** [k in d]. *)
Definition dict_has (k : string) (d : pydict) : bool :=
  match d !! k with
  | Some _ => true
  | None => false
  end.

(** [isinstance(v, dict)], giving the mapping. *)
Definition as_dict (v : pyval) : option pydict :=
  match v with
  | PDict d => Some d
  | _ => None
  end.

(** Truth value of a Python object, as tested by [not v] and [v or w]. *)
Definition truthy (v : pyval) : bool :=
  match v with
  | PNone => false
  | PBool b => b
  | PInt z => negb (z =? 0)
  | PFloat (S754_zero _) => false
  | PFloat _ => true
  | PStr EmptyString => false
  | PStr _ => true
  | PList [] => false
  | PList _ => true
  | PDict d => match map_to_list d with [] => false | _ => true end
  end.

(** The one-character strings a [str] iterates over. *)
Fixpoint str_chars (s : string) : list pyval :=
  match s with
  | EmptyString => []
  | String c s' => PStr (String c EmptyString) :: str_chars s'
  end.

(** [for x in v]: lists yield their items, mappings their keys and strings
    their characters; anything else is not iterable. *)
Definition py_iter (v : pyval) : result (list pyval) :=
  match v with
  | PList l => Ok l
  | PDict d => Ok (map (fun kv => PStr (fst kv)) (map_to_list d))
  | PStr s => Ok (str_chars s)
  | _ => Raise TypeError
  end.

(** Values for which [isinstance(v, int)] holds: [bool] is a subclass of
    [int], and [True == 1], [False == 0] as dictionary keys and in
    comparisons. *)
Inductive pyint : Type :=
| IInt (z : Z)
| IBool (b : bool).

Definition int_val (i : pyint) : Z :=
  match i with
  | IInt z => z
  | IBool b => Z.b2z b
  end.

Definition as_int (v : pyval) : option pyint :=
  match v with
  | PInt z => Some (IInt z)
  | PBool b => Some (IBool b)
  | _ => None
  end.

Definition of_pyint (i : pyint) : pyval :=
  match i with
  | IInt z => PInt z
  | IBool b => PBool b
  end.

(** [float(v)] under the guard [isinstance(v, (int, float))]; [None] when
    the guard fails, [OverflowError] for an [int] beyond the float range. *)
Definition as_number (v : pyval) : option (result spec_float) :=
  match v with
  | PFloat f => Some (Ok f)
  | PInt z =>
      Some match F64.of_Z z with
           | S754_infinity _ => Raise OverflowError
           | f => Ok f
           end
  | PBool b => Some (Ok (F64.of_Z (Z.b2z b)))
  | _ => None
  end.

(** The key a value denotes in a dictionary keyed by [int]s: equal numbers
    are equal keys, [None] and strings are keys that are never found, and
    lists and mappings are unhashable. *)
Definition int_key (v : pyval) : result (option Z) :=
  match v with
  | PInt z => Ok (Some z)
  | PBool b => Ok (Some (Z.b2z b))
  | PFloat f => Ok (F64.integral f)
  | PNone | PStr _ => Ok None
  | PList _ | PDict _ => Raise TypeError
  end.

(** ** What the runtime supplies *)

Class PyRuntime : Type := {
  (** [datetime.fromisoformat(s).astimezone(timezone.utc)] as an instant in
      microseconds, or the exception raised ([ValueError] for a string that
      is not in ISO format). *)
  fromisoformat_utc : string -> result Z;
  (** [repr] of a float, as an f-string and [str] print it. *)
  float_repr : spec_float -> string;
  (** [str] of a list or of a mapping. *)
  container_repr : pyval -> string
}.

(** [str(v)], also the text an f-string field expands to. *)
Definition py_str `{PyRuntime} (v : pyval) : string :=
  match v with
  | PNone => "None"
  | PBool true => "True"
  | PBool false => "False"
  | PInt z => pretty z
  | PFloat f => float_repr f
  | PStr s => s
  | PList _ | PDict _ => container_repr v
  end.

(** ** Static tables *)

Definition PI_PRODUCTS : gmap Z string :=
  list_to_map
    [ (2393, "Aqueous Liquids"); (2396, "Base Metals");
      (2397, "Carbon Compounds"); (2398, "Complex Organisms");
      (2401, "Heavy Metals");
      (2389, "Bacteria"); (2390, "Biofuels"); (2399, "Industrial Fibers");
      (3779, "Biomass"); (2400, "Precious Metals"); (2317, "Water");
      (9828, "Silicon");
      (44, "Enriched Uranium"); (3689, "Mechanical Parts");
      (9836, "Consumer Electronics"); (9832, "Construction Blocks");
      (3683, "Coolant"); (2867, "Broadcast Node"); (2868, "Camera Drones");
      (2869, "Synthetic Synapses"); (2870, "Gel-Matrix Biopaste");
      (2871, "Hazmat Detection Systems");
      (2872, "Integrity Response Drones");
      (2873, "Organic Mortar Applicators"); (2874, "Nano-Factory");
      (2875, "Sterile Conduits") ]%string.

Definition PI_STORAGE_CAPACITY_UNITS : gmap Z Z :=
  list_to_map [ (2524, 10000); (2544, 10000); (2256, 12000) ].

(** ** Leaf helpers of the script *)

(** [value.replace("Z", "+00:00")]: every occurrence of the one-character
    pattern is replaced. *)
Fixpoint replace_Z (s : string) : string :=
  match s with
  | EmptyString => EmptyString
  | String c s' =>
      if Ascii.eqb c "Z" then ("+00:00" +:+ replace_Z s')%string
      else String c (replace_Z s')
  end.

(** [sorted(set(l))] on [int]s.  A set keeps the first of several equal
    members ([1] and [True] are equal); [sorted] is stable and compares
    with [<]. *)
Fixpoint py_set (l : list pyint) : list pyint :=
  match l with
  | [] => []
  | x :: l' =>
      x :: filter (fun y => int_val y ≠ int_val x) (py_set l')
  end.

Fixpoint sorted_insert (x : pyint) (l : list pyint) : list pyint :=
  match l with
  | [] => [x]
  | y :: l' =>
      if int_val y <? int_val x then y :: sorted_insert x l'
      else x :: y :: l'
  end.

Definition py_sorted (l : list pyint) : list pyint := foldr sorted_insert [] l.

(** [list(dict.fromkeys(l))]: keys are inserted in order, and a key that is
    already present keeps its place. *)
Definition fromkeys_step (acc : list string) (k : string) : list string :=
  if bool_decide (k ∈ acc) then acc else acc ++ [k].

Definition dict_fromkeys (l : list string) : list string :=
  fold_left fromkeys_step l [].

(** [sep.join(l)]. *)
Definition py_join (sep : string) (l : list string) : string :=
  String.concat sep l.

(** [m.setdefault(k, []).append(v)]. *)
Definition setdefault_append (k : Z) (v : pyint) (m : gmap Z (list pyint))
  : gmap Z (list pyint) :=
  <[k := default [] (m !! k) ++ [v]]> m.

(** ** Output records *)

Inductive ext_status : Type :=
| Running
| Expired
| Idle.

Definition status_tag (st : ext_status) : string :=
  match st with
  | Running => "running"
  | Expired => "expired"
  | Idle => "idle"
  end.

Record extractor_entry : Type := {
  product : string;
  product_type_id : pyval;
  expiry : pyval;
  hours_remaining : option spec_float;
  status : ext_status
}.

Record factory_entry : Type := {
  input : string;
  output : string;
  schematic : string
}.

Record status_record : Type := {
  planet_id : pyval;
  planet_name : pyval;
  planet_type : pyval;
  solar_system_id : pyval;
  character : pyval;
  extractors : list extractor_entry;
  storage_fill_pct : option spec_float;
  factories : list factory_entry;
  needs_attention : bool;
  action_required : string
}.

(** ** The engine *)

Section Engine.

Context `{PyRuntime}.

(** [parse_utc_timestamp]: only [ValueError] is caught. *)
Definition parse_utc_timestamp (value : pyval) : result (option Z) :=
  if negb (truthy value) then Ok None
  else
    match value with
    | PStr s =>
        match fromisoformat_utc (replace_Z s) with
        | Ok t => Ok (Some t)
        | Raise ValueError => Ok None
        | Raise e => Raise e
        end
    | _ => Raise AttributeError
    end.

(** [resolve_pi_product_name]. *)
Definition resolve_pi_product_name (type_id : pyval) : result string :=
  match type_id with
  | PNone => Ok "unknown"%string
  | _ =>
      let fallback := ("type_id:" +:+ py_str type_id)%string in
      k ← int_key type_id;
      Ok (default fallback (k ≫= (PI_PRODUCTS !!.)))
  end.

(** [round((expiry_dt - now).total_seconds() / 3600.0, 2)]. *)
Definition hours_until (expiry_dt now : Z) : spec_float :=
  F64.round2 (F64.div (F64.int_truediv (expiry_dt - now) 1000000) F64.c3600).

(** [status]: ["idle"] unless the expiry parsed, and then
    ["running" if hours_remaining > 0 else "expired"]. *)
Definition classify (hours : option spec_float) : ext_status :=
  match hours with
  | None => Idle
  | Some h => if F64.ltb F64.zero h then Running else Expired
  end.

(** Body of the first loop over [pins], up to [extractors.append]. *)
Definition extractor_of_pin (now : Z) (pin : pyval)
  : result (option extractor_entry) :=
  match pin with
  | PDict p =>
      match dict_get "extractor_details" p with
      | PDict extractor =>
          let product_type_id := dict_get "product_type_id" extractor in
          let expiry := dict_get "expiry_time" p in
          expiry_dt ← parse_utc_timestamp expiry;
          let hours_remaining := (fun t => hours_until t now) <$> expiry_dt in
          let status := classify hours_remaining in
          product ← resolve_pi_product_name product_type_id;
          Ok (Some {| product := product;
                      product_type_id := product_type_id;
                      expiry := expiry;
                      hours_remaining := hours_remaining;
                      status := status |})
      | _ => Ok None
      end
  | _ => Ok None
  end.

(** The [if]/[elif] closing the loop body: the reasons one entry adds. *)
Definition extractor_attention (e : extractor_entry) : list string :=
  match status e with
  | Expired => ["Extractor already expired"%string]
  | _ =>
      match hours_remaining e with
      | Some h =>
          if F64.leb h F64.c6
          then [("Extractor expires in " +:+ float_repr h +:+ "h")%string]
          else []
      | None => []
      end
  end.

Fixpoint extractor_loop (now : Z) (pins : list pyval)
  : result (list extractor_entry * list string) :=
  match pins with
  | [] => Ok ([], [])
  | pin :: rest =>
      e ← extractor_of_pin now pin;
      '(es, rs) ← extractor_loop now rest;
      Ok match e with
         | Some entry => (entry :: es, extractor_attention entry ++ rs)
         | None => (es, rs)
         end
  end.

(** The loop over [routes]: the state is [(incoming_by_pin,
    outgoing_by_pin)]. *)
Definition route_step (acc : gmap Z (list pyint) * gmap Z (list pyint))
    (route : pyval) : gmap Z (list pyint) * gmap Z (list pyint) :=
  match route with
  | PDict r =>
      let source_pin := as_int (dict_get "source_pin_id" r) in
      let destination_pin := as_int (dict_get "destination_pin_id" r) in
      let content_type := as_int (dict_get "content_type_id" r) in
      let outgoing :=
        match source_pin, content_type with
        | Some s, Some c => setdefault_append (int_val s) c (snd acc)
        | _, _ => snd acc
        end in
      let incoming :=
        match destination_pin, content_type with
        | Some d, Some c => setdefault_append (int_val d) c (fst acc)
        | _, _ => fst acc
        end in
      (incoming, outgoing)
  | _ => acc
  end.

Definition aggregate_routes (routes : list pyval)
  : gmap Z (list pyint) * gmap Z (list pyint) :=
  fold_left route_step routes (∅, ∅).

(** The rendering of one side of a factory. *)
Definition render_types (types : list pyint) : result string :=
  match types with
  | [] => Ok "unknown"%string
  | _ =>
      names ← mapM (fun tid => resolve_pi_product_name (of_pyint tid)) types;
      Ok (py_join ", " names)
  end.

(** Body of the second loop over [pins]. *)
Definition factory_of_pin (incoming outgoing : gmap Z (list pyint))
    (pin : pyval) : result (option factory_entry) :=
  match pin with
  | PDict p =>
      if negb (dict_has "factory_details" p) && negb (dict_has "schematic_id" p)
      then Ok None
      else
        match as_int (dict_get "pin_id" p) with
        | Some pin_id =>
            let input_types :=
              py_sorted (py_set (default [] (incoming !! int_val pin_id))) in
            let output_types :=
              py_sorted (py_set (default [] (outgoing !! int_val pin_id))) in
            let schematic := dict_get "schematic_id" p in
            i ← render_types input_types;
            o ← render_types output_types;
            Ok (Some {| input := i;
                        output := o;
                        schematic :=
                          match schematic with
                          | PNone => "unknown"
                          | _ => "Schematic " +:+ py_str schematic
                          end%string |})
        | None => Ok None
        end
  | _ => Ok None
  end.

Fixpoint factory_loop (incoming outgoing : gmap Z (list pyint))
    (pins : list pyval) : result (list factory_entry) :=
  match pins with
  | [] => Ok []
  | pin :: rest =>
      f ← factory_of_pin incoming outgoing pin;
      fs ← factory_loop incoming outgoing rest;
      Ok match f with
         | Some entry => entry :: fs
         | None => fs
         end
  end.

(** [estimate_storage_fill_pct]: the inner loop over [contents]. *)
Fixpoint sum_amounts (total_amount : spec_float) (contents : list pyval)
  : result spec_float :=
  match contents with
  | [] => Ok total_amount
  | PDict item :: rest =>
      match as_number (dict_get "amount" item) with
      | Some amount =>
          a ← amount;
          sum_amounts (F64.add total_amount a) rest
      | None => sum_amounts total_amount rest
      end
  | _ :: rest => sum_amounts total_amount rest
  end.

(** The [fill] one pin yields, [None] when the loop [continue]s. *)
Definition pin_fill (pin : pyval) : result (option spec_float) :=
  match pin with
  | PDict p =>
      k ← int_key (dict_get "type_id" p);
      match k ≫= (PI_STORAGE_CAPACITY_UNITS !!.) with
      | None => Ok None
      | Some capacity =>
          if capacity =? 0 then Ok None
          else
            let contents :=
              if truthy (dict_get "contents" p) then dict_get "contents" p
              else PList [] in
            match contents with
            | PList items =>
                total_amount ← sum_amounts F64.zero items;
                Ok (Some (F64.py_min F64.c100
                            (F64.round2
                               (F64.mul
                                  (F64.div total_amount (F64.of_Z capacity))
                                  F64.c100))))
            | _ => Ok None
            end
      end
  | _ => Ok None
  end.

Definition update_max (max_fill : option spec_float) (fill : spec_float)
  : option spec_float :=
  match max_fill with
  | None => Some fill
  | Some m => if F64.ltb m fill then Some fill else Some m
  end.

Fixpoint storage_loop (max_fill : option spec_float) (pins : list pyval)
  : result (option spec_float) :=
  match pins with
  | [] => Ok max_fill
  | pin :: rest =>
      f ← pin_fill pin;
      storage_loop
        match f with
        | Some fill => update_max max_fill fill
        | None => max_fill
        end rest
  end.

Definition estimate_storage_fill_pct (pins : pyval)
  : result (option spec_float) :=
  l ← py_iter pins;
  storage_loop None l.

(** The message appended after the storage estimate. *)
Definition storage_attention (storage_fill_pct : option spec_float)
  : list string :=
  match storage_fill_pct with
  | Some f =>
      if F64.leb F64.c80 f
      then [("Storage/Launchpad at " +:+ float_repr f +:+ "%")%string]
      else []
  | None => []
  end.

(** Construction of [details_map].  Keys of the mapping are strings, as
    [get_pi_status] builds them, so [str(k)] is [k]. *)
Definition details_step (m : gmap string pydict) (item : pyval)
  : gmap string pydict :=
  match item with
  | PDict i =>
      let planet_id := dict_get "planet_id" i in
      let detail :=
        match dict_get "detail" i with
        | PDict d => d
        | _ => i
        end in
      match planet_id with
      | PNone => m
      | _ => <[py_str planet_id := detail]> m
      end
  | _ => m
  end.

Definition build_details_map (planet_details : pyval) : gmap string pydict :=
  match planet_details with
  | PDict d => omap as_dict d
  | PList items => fold_left details_step items ∅
  | _ => ∅
  end.

(** Body of the loop over [planets_data], for an entry that is a mapping. *)
Definition colony_status (now : Z) (details_map : gmap string pydict)
    (planet : pydict) : result status_record :=
  let planet_id := dict_get "planet_id" planet in
  let detail := default ∅ (details_map !! py_str planet_id) in
  let pins := dict_get_default "pins" (PList []) detail in
  let routes := dict_get_default "routes" (PList []) detail in
  pin_list ← py_iter pins;
  '(extractors, extractor_reasons) ← extractor_loop now pin_list;
  route_list ← py_iter routes;
  let '(incoming_by_pin, outgoing_by_pin) := aggregate_routes route_list in
  factories ← factory_loop incoming_by_pin outgoing_by_pin pin_list;
  storage_fill_pct ← estimate_storage_fill_pct pins;
  let attention_reasons :=
    extractor_reasons ++ storage_attention storage_fill_pct in
  let unique_reasons := dict_fromkeys attention_reasons in
  Ok {| planet_id := planet_id;
        planet_name :=
          dict_get_default "_planet_name"
            (PStr ("Planet " +:+ py_str planet_id)) detail;
        planet_type := dict_get "planet_type" planet;
        solar_system_id := dict_get "solar_system_id" planet;
        character := dict_get_default "_character_name" (PStr "unknown") detail;
        extractors := extractors;
        storage_fill_pct := storage_fill_pct;
        factories := factories;
        needs_attention :=
          match unique_reasons with [] => false | _ => true end;
        action_required :=
          match unique_reasons with
          | [] => "none"
          | _ => py_join "; " unique_reasons
          end%string |}.

Fixpoint status_loop (now : Z) (details_map : gmap string pydict)
    (planets : list pyval) : result (list status_record) :=
  match planets with
  | [] => Ok []
  | PDict planet :: rest =>
      r ← colony_status now details_map planet;
      rs ← status_loop now details_map rest;
      Ok (r :: rs)
  | _ :: rest => status_loop now details_map rest
  end.

(** [parse_pi_status], with the instant read from the clock as [now]. *)
Definition parse_pi_status (now : Z) (planets_data planet_details : pyval)
  : result (list status_record) :=
  let details_map := build_details_map planet_details in
  planets ← py_iter planets_data;
  status_loop now details_map planets.

End Engine.

(** ** A reference runtime

    A concrete [PyRuntime] on which the engine can be run.  It decodes the
    RFC 3339 layout [YYYY-MM-DDTHH:MM:SS+HH:MM] that the upstream API emits
    once [Z] has been replaced (every string it accepts is accepted by
    [datetime.fromisoformat] with the same instant) and prints the floats
    that [round(_, 2)] returns, below 1e13 in magnitude, as [repr] does.
    No sample below makes the engine print a list or a mapping, for which
    it has a fixed placeholder. *)

Module RefRuntime.

Definition digit (c : ascii) : option Z :=
  let n := Z.of_N (N_of_ascii c) in
  if (48 <=? n) && (n <=? 57) then Some (n - 48) else None.

Definition two (a b : ascii) : option Z :=
  x ← digit a; y ← digit b; Some (10 * x + y).

Definition is_leap (y : Z) : bool :=
  (y mod 4 =? 0) && (negb (y mod 100 =? 0) || (y mod 400 =? 0)).

Definition days_in_month (y m : Z) : Z :=
  if m =? 2 then (if is_leap y then 29 else 28)
  else if (m =? 4) || (m =? 6) || (m =? 9) || (m =? 11) then 30
  else 31.

(** Days from 1970-01-01 to the given proleptic Gregorian date. *)
Definition days_from_civil (y m d : Z) : Z :=
  let y' := if m <=? 2 then y - 1 else y in
  let era := y' / 400 in
  let yoe := y' - era * 400 in
  let doy := (153 * (if m <=? 2 then m + 9 else m - 3) + 2) / 5 + d - 1 in
  let doe := yoe * 365 + yoe / 4 - yoe / 100 + doy in
  era * 146097 + doe - 719468.

Definition min_instant : Z := days_from_civil 1 1 1 * 86400000000.
Definition max_instant : Z :=
  days_from_civil 9999 12 31 * 86400000000 + 86399999999.

Definition decode (cs : list ascii) : option Z :=
  match cs with
  | [y1; y2; y3; y4; "-"; m1; m2; "-"; d1; d2; "T";
     h1; h2; ":"; n1; n2; ":"; s1; s2; sg; a1; a2; ":"; b1; b2]%char =>
      yh ← two y1 y2; yl ← two y3 y4;
      mo ← two m1 m2; dd ← two d1 d2;
      hh ← two h1 h2; mi ← two n1 n2; ss ← two s1 s2;
      oh ← two a1 a2; om ← two b1 b2;
      sign ← (if Ascii.eqb sg "+" then Some 1
               else if Ascii.eqb sg "-" then Some (-1) else None);
      let y := 100 * yh + yl in
      if (1 <=? y) && (1 <=? mo) && (mo <=? 12) && (1 <=? dd)
         && (dd <=? days_in_month y mo) && (hh <? 24) && (mi <? 60)
         && (ss <? 60) && (oh <? 24) && (om <? 60)
      then
        Some ((days_from_civil y mo dd * 86400 + hh * 3600 + mi * 60 + ss
               - sign * (oh * 3600 + om * 60)) * 1000000)
      else None
  | _ => None
  end.

Definition iso (s : string) : result Z :=
  match decode (list_ascii_of_string s) with
  | Some t =>
      if (min_instant <=? t) && (t <=? max_instant) then Ok t
      else Raise OverflowError
  | None => Raise ValueError
  end.

(** [repr] of a float with at most two decimals. *)
Definition repr (x : spec_float) : string :=
  match x with
  | S754_nan => "nan"
  | S754_infinity s => if s then "-inf" else "inf"
  | S754_zero s => if s then "-0.0" else "0.0"
  | S754_finite s m e =>
      let n := F64.rne_scaled (Zpos m * 100) e in
      let whole := n / 100 in
      let tenths := n mod 100 / 10 in
      let hundredths := n mod 10 in
      let trim := hundredths =? 0 in
      ((if s then "-" else "") +:+ pretty whole +:+ "." +:+ pretty tenths
       +:+ (if trim then "" else pretty hundredths))%string
  end.

Definition runtime : PyRuntime := {|
  fromisoformat_utc := iso;
  float_repr := repr;
  container_repr := fun _ => "[...]"%string
|}.

End RefRuntime.

(** ** Sample inputs *)

Module Samples.

(** 2024-01-01T12:00:00 UTC. *)
Definition noon : Z := 1704110400000000.

Definition extractor_pin (expiry : pyval) : pyval :=
  PDict {[ "pin_id" := PInt 1;
           "type_id" := PInt 3060;
           "expiry_time" := expiry;
           "extractor_details" := PDict {[ "product_type_id" := PInt 2393 ]} ]}.

Definition pin_1h_ago : pydict :=
  {[ "pin_id" := PInt 1;
     "type_id" := PInt 3060;
     "expiry_time" := PStr "2024-01-01T11:00:00Z";
     "extractor_details" := PDict {[ "product_type_id" := PInt 2393 ]} ]}.

Definition entry_1h_ago : extractor_entry :=
  {| product := "Aqueous Liquids";
     product_type_id := PInt 2393;
     expiry := PStr "2024-01-01T11:00:00Z";
     hours_remaining := Some (F64.hundredths true 100);
     status := Expired |}.


Definition storage_pin (type_id amount : pyval) : pyval :=
  PDict {[ "pin_id" := PInt 2;
           "type_id" := type_id;
           "contents" := PList [PDict {[ "type_id" := PInt 2393;
                                         "amount" := amount ]}] ]}.

(** A launchpad whose [contents] is a mapping instead of a list. *)
Definition keyed_contents_pin : pyval :=
  PDict {[ "pin_id" := PInt 3;
           "type_id" := PInt 2544;
           "contents" := PDict {[ "2393" := PInt 9000 ]} ]}.




(** 90.0 *)
Definition f90 : spec_float := Eval vm_compute in F64.of_Z 90.

Definition planet (id : Z) : pyval :=
  PDict {[ "planet_id" := PInt id;
           "planet_type" := PStr "barren";
           "solar_system_id" := PInt 30000142 ]}.

Definition planet7 : pydict :=
  {[ "planet_id" := PInt 7;
     "planet_type" := PStr "barren";
     "solar_system_id" := PInt 30000142 ]}.

(** Two extractors past expiry and a launchpad at 90 percent. *)
Definition busy_map : gmap string pydict :=
  {[ "7" := {[ "pins" :=
                 PList [ extractor_pin (PStr "2024-01-01T11:00:00Z");
                         extractor_pin (PStr "2024-01-01T10:00:00Z");
                         storage_pin (PInt 2544) (PInt 9000) ] ]} ]}.

Definition busy_record : status_record :=
  {| planet_id := PInt 7;
     planet_name := PStr "Planet 7";
     planet_type := PStr "barren";
     solar_system_id := PInt 30000142;
     character := PStr "unknown";
     extractors :=
       [ {| product := "Aqueous Liquids";
            product_type_id := PInt 2393;
            expiry := PStr "2024-01-01T11:00:00Z";
            hours_remaining := Some (F64.hundredths true 100);
            status := Expired |};
         {| product := "Aqueous Liquids";
            product_type_id := PInt 2393;
            expiry := PStr "2024-01-01T10:00:00Z";
            hours_remaining := Some (F64.hundredths true 200);
            status := Expired |} ];
     storage_fill_pct := Some f90;
     factories := [];
     needs_attention := true;
     action_required :=
       "Extractor already expired; Storage/Launchpad at 90.0%" |}.

Definition details (id : string) (pins routes : list pyval) : pyval :=
  PDict {[ id := PDict {[ "pins" := PList pins; "routes" := PList routes ]} ]}.

Definition route (src dst content : pyval) : pyval :=
  PDict {[ "source_pin_id" := src;
           "destination_pin_id" := dst;
           "content_type_id" := content ]}.

Definition factory_pin (id : Z) : pyval :=
  PDict {[ "pin_id" := PInt id; "schematic_id" := PInt 121 ]}.


(** Routes into and out of factory 5 with ordinary commodity types. *)
Definition route_water : pyval := route (PInt 1) (PInt 5) (PInt 2393).
Definition route_bacteria : pyval := route (PInt 2) (PInt 5) (PInt 2389).
Definition route_biofuels : pyval := route (PInt 5) (PInt 9) (PInt 2390).

End Samples.

(** ** URL helpers *)

Definition BASE_URL : string := "https://esi.evetech.net/latest".

Definition JITA_REGION_ID : Z := 10000002.

(** [s.startswith("/")]. *)
Definition starts_with_slash (s : string) : bool :=
  match s with
  | String c _ => Ascii.eqb c "/"
  | EmptyString => false
  end.

(** [normalize_endpoint]. *)
Definition normalize_endpoint (endpoint : string) : string :=
  if starts_with_slash endpoint then endpoint else String "/" endpoint.

(** [c in s] for a one-character string [c]. *)
Fixpoint contains_char (c : ascii) (s : string) : bool :=
  match s with
  | EmptyString => false
  | String c' s' => Ascii.eqb c' c || contains_char c s'
  end.

(** A [dict] with string keys whose order of insertion matters, as the
    query of a URL: the items in that order, keys distinct. *)
Abbreviation ordered_dict := (list (string * pyval)).

(** [d[k] = v]: a key that is present keeps its place. *)
Fixpoint dict_set (k : string) (v : pyval) (d : ordered_dict) : ordered_dict :=
  match d with
  | [] => [(k, v)]
  | (k', v') :: d' =>
      if decide (k' = k) then (k, v) :: d' else (k', v') :: dict_set k v d'
  end.

(** [d.update(other)]. *)
Definition dict_update (d other : ordered_dict) : ordered_dict :=
  fold_left (fun acc kv => dict_set (fst kv) (snd kv) acc) other d.

(** [d.get(k)] on such a dictionary. *)
Fixpoint ordered_get (k : string) (d : ordered_dict) : option pyval :=
  match d with
  | [] => None
  | (k', v') :: d' => if decide (k' = k) then Some v' else ordered_get k d'
  end.

Section Url.

(** [urllib.parse.urlencode] on a query. *)
Variable urlencode : ordered_dict -> string.

(** The [query] that [build_url] assembles. *)
Definition build_query (page : option Z) (params : option ordered_dict)
  : ordered_dict :=
  let query :=
    match params with
    | Some (kv :: rest) => dict_update [] (kv :: rest)
    | _ => []
    end in
  match page with
  | Some p => dict_set "page" (PInt p) query
  | None => query
  end.

(** [build_url]. *)
Definition build_url (endpoint : string) (page : option Z)
    (params : option ordered_dict) : string :=
  let url := (BASE_URL +:+ normalize_endpoint endpoint)%string in
  match build_query page params with
  | [] => url
  | query =>
      let sep := if contains_char "?" url then "&" else "?" in
      (url +:+ sep +:+ urlencode query)%string
  end.

End Url.

(** ** The remote service

    [esi_request] performs the HTTP exchange.  It is the boundary of the
    embedding: a call sends its request and takes the next reply of the
    service, which is a parsed body with lower-cased headers, or a way of
    not returning: the [sys.exit(1)] of the error path, or an exception
    that the call lets through.  A [world] holds the replies still to
    come and the requests sent so far; every behaviour of the service over
    one run is some script of replies. *)

Record request : Type := {
  endpoint : string;
  token : option string;
  page : option Z;
  params : option ordered_dict;
  allow_404 : bool
}.

Inductive failure : Type :=
| ProcessExit
| NetworkError
| Uncaught (e : exn).

Inductive reply : Type :=
| Reply (body : pyval) (headers : gmap string string)
| NoReply (f : failure).

Record world : Type := {
  script : list reply;
  sent : list request
}.

Inductive outcome (A : Type) : Type :=
| Value (a : A)
| Failed (f : failure).

Arguments Value {A} a.
Arguments Failed {A} f.

Definition io (A : Type) : Type := world -> outcome A * world.

#[global] Instance io_bind : MBind io :=
  fun A B (k : A -> io B) (m : io A) (w : world) =>
    match m w with
    | (Value a, w') => k a w'
    | (Failed f, w') => (Failed f, w')
    end.

#[global] Instance io_ret : MRet io := fun A a w => (Value a, w).

(** A pure step that may raise. *)
Definition lift {A : Type} (r : result A) : io A :=
  fun w =>
    match r with
    | Ok a => (Value a, w)
    | Raise e => (Failed (Uncaught e), w)
    end.

(** One call of [esi_request]; a service that has stopped answering is a
    network error. *)
Definition esi_request (req : request) : io (pyval * gmap string string) :=
  fun w =>
    let w' := {| script := tail (script w); sent := sent w ++ [req] |} in
    match script w with
    | Reply body headers :: _ => (Value (body, headers), w')
    | NoReply f :: _ => (Failed f, w')
    | [] => (Failed NetworkError, w')
    end.

(** [str] of an [int]. *)
Definition pyint_str (i : pyint) : string :=
  match i with
  | IInt z => pretty z
  | IBool true => "True"
  | IBool false => "False"
  end.

Section Remote.

(** [int(s)] on a header value; [ValueError] when it is not a number. *)
Variable int_of_str : string -> result Z.

(** [int(headers.get("x-pages", "1"))]. *)
Definition total_pages_of (headers : gmap string string) : result Z :=
  match headers !! "x-pages" with
  | Some s => int_of_str s
  | None => Ok 1
  end.

Definition page_request (endpoint : string) (token : option string)
    (params : option ordered_dict) (p : Z) : request :=
  {| endpoint := endpoint; token := token; page := Some p;
     params := params; allow_404 := false |}.

(** The loop of [esi_request_all_pages] over the pages after the first. *)
Fixpoint fetch_pages (endpoint : string) (token : option string)
    (params : option ordered_dict) (pages : list Z) (all_results : list pyval)
  : io (list pyval) :=
  match pages with
  | [] => mret all_results
  | p :: rest =>
      '(page_data, _) ← esi_request (page_request endpoint token params p);
      fetch_pages endpoint token params rest
        match page_data with
        | PList items => all_results ++ items
        | _ => all_results
        end
  end.

(** [esi_request_all_pages]; [range(2, total_pages + 1)] is empty unless
    [total_pages] is at least 2. *)
Definition esi_request_all_pages (endpoint : string) (token : option string)
    (params : option ordered_dict) : io (list pyval) :=
  '(first_page, headers) ← esi_request (page_request endpoint token params 1);
  total_pages ← lift (total_pages_of headers);
  match first_page with
  | PList items =>
      fetch_pages endpoint token params (seqZ 2 (total_pages - 1)) items
  | PNone => mret []
  | _ => mret [first_page]
  end.

(** [get_pi_planets]. *)
Definition get_pi_planets (character_id : Z) (token : string)
  : io (list pyval) :=
  esi_request_all_pages
    ("/characters/" +:+ pretty character_id +:+ "/planets/")%string
    (Some token) None.

(** A body that is a mapping, or else the empty mapping. *)
Definition dict_or_empty (body : pyval) : pydict :=
  match body with
  | PDict d => d
  | _ => ∅
  end.

Definition detail_request (character_id : Z) (planet_id : pyint)
    (token : string) : request :=
  {| endpoint := ("/characters/" +:+ pretty character_id +:+ "/planets/"
                  +:+ pyint_str planet_id +:+ "/")%string;
     token := Some token; page := None; params := None;
     allow_404 := false |}.

(** [get_pi_planet_detail]. *)
Definition get_pi_planet_detail (character_id : Z) (planet_id : pyint)
    (token : string) : io pydict :=
  '(result, _) ← esi_request (detail_request character_id planet_id token);
  mret (dict_or_empty result).

Definition universe_request (planet_id : pyint) : request :=
  {| endpoint := ("/universe/planets/" +:+ pyint_str planet_id +:+ "/")%string;
     token := None; page := None; params := None; allow_404 := true |}.

(** [get_universe_planet]. *)
Definition get_universe_planet (planet_id : pyint) : io pydict :=
  '(result, _) ← esi_request (universe_request planet_id);
  mret (dict_or_empty result).

(** [get_market_price_bulk]. *)
Definition get_market_price_bulk : io (list pyval) :=
  '(result, _) ← esi_request
                   {| endpoint := "/markets/prices/"; token := None;
                      page := None; params := None; allow_404 := false |};
  mret match result with
       | PList items => items
       | _ => []
       end.

(** The detail stored for a planet: the fetched one, with the name of the
    universe lookup when that name is truthy. *)
Definition named_detail (detail planet_meta : pydict) : pydict :=
  if truthy (dict_get "name" planet_meta)
  then <["_planet_name" := dict_get "name" planet_meta]> detail
  else detail.

(** The loop of [get_pi_status] over the planets. *)
Fixpoint fetch_details (character_id : Z) (token : string)
    (planets : list pyval) (details : gmap string pydict)
  : io (gmap string pydict) :=
  match planets with
  | [] => mret details
  | PDict planet :: rest =>
      match as_int (dict_get "planet_id" planet) with
      | Some planet_id =>
          detail ← get_pi_planet_detail character_id planet_id token;
          planet_meta ← get_universe_planet planet_id;
          fetch_details character_id token rest
            (<[pyint_str planet_id := named_detail detail planet_meta]> details)
      | None => fetch_details character_id token rest details
      end
  | _ :: rest => fetch_details character_id token rest details
  end.

(** [get_pi_status], with the instant of the clock as [now]. *)
Definition get_pi_status `{PyRuntime} (now : Z) (character_id : Z)
    (token : string) : io (list status_record) :=
  planets ← get_pi_planets character_id token;
  details ← fetch_details character_id token planets ∅;
  lift (parse_pi_status now (PList planets) (PDict (PDict <$> details))).

End Remote.

(** ** The market snapshot *)

(** Values for which [isinstance(v, (int, float))] holds. *)
Inductive pynum : Type :=
| NInt (i : pyint)
| NFloat (f : spec_float).

Definition as_num (v : pyval) : option pynum :=
  match v with
  | PInt z => Some (NInt (IInt z))
  | PBool b => Some (NInt (IBool b))
  | PFloat f => Some (NFloat f)
  | _ => None
  end.

(** An [int] against a float: Python compares the two exactly. *)
Definition Z_compare_float (z : Z) (f : spec_float) : option comparison :=
  match f with
  | S754_nan => None
  | S754_infinity s => Some (if s then Gt else Lt)
  | S754_zero _ => Some (z ?= 0)
  | S754_finite s m (Zneg p) => Some (z * 2 ^ Zpos p ?= cond_Zopp s (Zpos m))
  | S754_finite s m e => Some (z ?= cond_Zopp s (Zpos m) * 2 ^ e)
  end.

(** [a < b] on two numbers. *)
Definition num_lt (a b : pynum) : bool :=
  match a, b with
  | NInt x, NInt y => int_val x <? int_val y
  | NFloat x, NFloat y => F64.ltb x y
  | NInt x, NFloat y =>
      match Z_compare_float (int_val x) y with
      | Some Lt => true
      | _ => false
      end
  | NFloat x, NInt y =>
      match Z_compare_float (int_val y) x with
      | Some Gt => true
      | _ => false
      end
  end.

(** [min(prices)] and [max(prices)] on a list that is not empty: the
    first of the smallest, respectively largest, items. *)
Definition py_min_list (first : pynum) (rest : list pynum) : pynum :=
  fold_left (fun m item => if num_lt item m then item else m) rest first.

Definition py_max_list (first : pynum) (rest : list pynum) : pynum :=
  fold_left (fun m item => if num_lt m item then item else m) rest first.

(** [float(x)] for an operand of mixed arithmetic. *)
Definition num_to_float (a : pynum) : result spec_float :=
  match a with
  | NFloat f => Ok f
  | NInt i =>
      match F64.of_Z (int_val i) with
      | S754_infinity _ => Raise OverflowError
      | f => Ok f
      end
  end.

(** [a - b]: exact on two [int]s, in floats otherwise. *)
Definition num_sub (a b : pynum) : result pynum :=
  match a, b with
  | NInt x, NInt y => Ok (NInt (IInt (int_val x - int_val y)))
  | _, _ =>
      x ← num_to_float a;
      y ← num_to_float b;
      Ok (NFloat (SFsub F64.prec F64.emax x y))
  end.

(** [round(x, 2)]: an [int] is returned as it is. *)
Definition num_round2 (a : pynum) : pynum :=
  match a with
  | NInt i => NInt i
  | NFloat f => NFloat (F64.round2 f)
  end.

(** The prices of the orders that are mappings with a numeric [price]. *)
Definition order_prices (orders : list pyval) : list pynum :=
  omap (fun o =>
          match o with
          | PDict d => as_num (dict_get "price" d)
          | _ => None
          end) orders.

Record jita_price : Type := {
  type_id : Z;
  region_id : Z;
  lowest_sell : option pynum;
  highest_buy : option pynum;
  spread : option pynum;
  sell_order_count : nat;
  buy_order_count : nat
}.

(** [get_jita_price], from the two order lists on. *)
Definition jita_summary (type_id : Z) (sell_orders buy_orders : list pyval)
  : result jita_price :=
  let lowest_sell :=
    match order_prices sell_orders with
    | [] => None
    | p :: ps => Some (py_min_list p ps)
    end in
  let highest_buy :=
    match order_prices buy_orders with
    | [] => None
    | p :: ps => Some (py_max_list p ps)
    end in
  spread ← match lowest_sell, highest_buy with
            | Some l, Some h => d ← num_sub l h; Ok (Some (num_round2 d))
            | _, _ => Ok None
            end;
  Ok {| type_id := type_id;
        region_id := JITA_REGION_ID;
        lowest_sell := lowest_sell;
        highest_buy := highest_buy;
        spread := spread;
        sell_order_count := length sell_orders;
        buy_order_count := length buy_orders |}.

Section Market.

Variable int_of_str : string -> result Z.

Definition orders_endpoint : string :=
  ("/markets/" +:+ pretty JITA_REGION_ID +:+ "/orders/")%string.

Definition orders_params (type_id : Z) (order_type : string) : ordered_dict :=
  [ ("type_id"%string, PInt type_id); ("order_type"%string, PStr order_type) ].

(** [get_jita_price]. *)
Definition get_jita_price (type_id : Z) : io jita_price :=
  sell_orders ← esi_request_all_pages int_of_str orders_endpoint None
                  (Some (orders_params type_id "sell"));
  buy_orders ← esi_request_all_pages int_of_str orders_endpoint None
                 (Some (orders_params type_id "buy"));
  lift (jita_summary type_id sell_orders buy_orders).

End Market.

(** ** Further reference pieces and samples *)

Module RefInt.

(** [int(s)] on a string of decimal digits (every such string is read by
    [int] as the same number). *)
Fixpoint digits (acc : Z) (cs : list ascii) : result Z :=
  match cs with
  | [] => Ok acc
  | c :: cs' =>
      match RefRuntime.digit c with
      | Some d => digits (10 * acc + d) cs'
      | None => Raise ValueError
      end
  end.

Definition parse (s : string) : result Z :=
  match list_ascii_of_string s with
  | [] => Raise ValueError
  | cs => digits 0 cs
  end.

End RefInt.

Module MoreSamples.

Import Samples.

(** Two launchpads, at 90 and at 50 percent. *)
Definition half_full_pin : pyval := storage_pin (PInt 2524) (PInt 5000).
Definition nearly_full_pin : pyval := storage_pin (PInt 2544) (PInt 9000).

(** 50.0 *)
Definition f50 : spec_float := Eval vm_compute in F64.of_Z 50.

(** A service that lists one colony on a single page, then answers the
    detail and the name lookup for it. *)
Definition colony_world : world :=
  {| script :=
       [ Reply (PList [planet 7; PStr "stray"])
           {[ "x-pages" := "1"%string ]};
         Reply (PDict {[ "pins" := PList [nearly_full_pin] ]}) ∅;
         Reply (PDict {[ "name" := PStr "Jita IV" ]}) ∅ ];
     sent := [] |}.

Definition colony_report : list status_record :=
  [ {| planet_id := PInt 7;
       planet_name := PStr "Jita IV";
       planet_type := PStr "barren";
       solar_system_id := PInt 30000142;
       character := PStr "unknown";
       extractors := [];
       storage_fill_pct := Some f90;
       factories := [];
       needs_attention := true;
       action_required := "Storage/Launchpad at 90.0%" |} ].

(** A listing in two pages. *)
Definition paged_world : world :=
  {| script :=
       [ Reply (PList [PInt 1; PInt 2]) {[ "x-pages" := "2"%string ]};
         Reply (PList [PInt 3]) ∅ ];
     sent := [] |}.

(** 5.5 and 1.5 *)
Definition f5_5 : spec_float :=
  Eval vm_compute in F64.int_truediv 11 2.
Definition f1_5 : spec_float :=
  Eval vm_compute in F64.int_truediv 3 2.

(** Two sides of an order book, each with an entry without a price. *)
Definition sell_book : list pyval :=
  [ PDict {[ "price" := PInt 6 ]};
    PDict {[ "price" := PFloat f5_5 ]};
    PStr "stray";
    PDict {[ "volume_remain" := PInt 10 ]} ].

Definition buy_book : list pyval :=
  [ PDict {[ "price" := PInt 3 ]};
    PDict {[ "price" := PStr "4" ]};
    PDict {[ "price" := PInt 4 ]} ].

Definition book_summary : jita_price :=
  {| type_id := 34;
     region_id := 10000002;
     lowest_sell := Some (NFloat f5_5);
     highest_buy := Some (NInt (IInt 4));
     spread := Some (NFloat f1_5);
     sell_order_count := 4;
     buy_order_count := 3 |}.

(** A service with each side of the book on one page. *)
Definition market_world : world :=
  {| script := [ Reply (PList sell_book) ∅; Reply (PList buy_book) ∅ ];
     sent := [] |}.

End MoreSamples.

(** ** Notions used to state the properties *)

(** Zero or carrying a minus sign: what the test [x > 0] rejects. *)
Definition nonpositive (x : spec_float) : Prop :=
  match x with
  | S754_zero _ | S754_nan => True
  | S754_infinity s | S754_finite s _ _ => s = true
  end.

Definition nonnegative (x : spec_float) : Prop :=
  match x with
  | S754_zero _ | S754_nan => True
  | S754_infinity s | S754_finite s _ _ => s = false
  end.

(** A float that is the nearest one to a decimal with two places, or is
    not a number of that kind at all (an infinity, NaN). *)
Definition two_decimals (x : spec_float) : Prop :=
  (exists s n, x = F64.hundredths s n)
  \/ (exists s, x = S754_infinity s) \/ x = S754_nan.

(** The expiry is a non-empty string that the runtime reads as [t]. *)
Definition parses_to `{PyRuntime} (value : pyval) (t : Z) : Prop :=
  exists s, value = PStr s /\ s <> EmptyString
            /\ fromisoformat_utc (replace_Z s) = Ok t.


Ltac cmp_cases :=
  repeat match goal with
    | |- context [Z.compare ?a ?b] => destruct (Z.compare_spec a b)
    | H : context [Z.compare ?a ?b] |- _ => destruct (Z.compare_spec a b)
    | |- context [Pos.compare_cont Eq ?a ?b] =>
        change (Pos.compare_cont Eq a b) with (Pos.compare a b);
        destruct (Pos.compare_spec a b)
    | H : context [Pos.compare_cont Eq ?a ?b] |- _ =>
        change (Pos.compare_cont Eq a b) with (Pos.compare a b) in H;
        destruct (Pos.compare_spec a b)
    end;
  simpl in *; try congruence; try lia.

(** The capacity the table gives for a pin's type, if any. *)
Definition capacity_of (pin : pyval) : option Z :=
  match pin with
  | PDict p =>
      match int_key (dict_get "type_id" p) with
      | Ok (Some k) => PI_STORAGE_CAPACITY_UNITS !! k
      | _ => None
      end
  | _ => None
  end.

(** The content entries of a pin: none when [contents] is absent or empty,
    undefined when [contents] is some other value than a list. *)
Definition contents_of (pin : pyval) : option (list pyval) :=
  match pin with
  | PDict p =>
      if truthy (dict_get "contents" p)
      then match dict_get "contents" p with
           | PList items => Some items
           | _ => None
           end
      else Some []
  | _ => None
  end.

(** A pin that enters the fill estimate, with its capacity and entries. *)
Definition eligible (pin : pyval) (capacity : Z) (items : list pyval) : Prop :=
  capacity_of pin = Some capacity /\ contents_of pin = Some items.

(** Total quantity / capacity * 100, rounded to two decimals and clamped
    to 100.0. *)
Definition fill_ratio (total : spec_float) (capacity : Z) : spec_float :=
  F64.py_min F64.c100
    (F64.round2 (F64.mul (F64.div total (F64.of_Z capacity)) F64.c100)).

(** The quantity of a content entry: defined for a mapping whose [amount]
    is a number, and then the float it converts to. *)
Definition entry_amount (item : pyval) : option (result spec_float) :=
  match item with
  | PDict i => as_number (dict_get "amount" i)
  | _ => None
  end.

(** Left-to-right float sum of converted quantities. *)
Fixpoint add_all (total : spec_float) (amounts : list (result spec_float))
  : result spec_float :=
  match amounts with
  | [] => Ok total
  | a :: rest => x ← a; add_all (F64.add total x) rest
  end.

(** The members of a list in order of first occurrence. *)
Fixpoint first_occurrences (l : list string) : list string :=
  match l with
  | [] => []
  | x :: l' => x :: filter (fun y => y ≠ x) (first_occurrences l')
  end.

(** The detail record the engine looks up for a colony. *)
Definition detail_of `{PyRuntime} (details_map : gmap string pydict)
    (planet : pydict) : pydict :=
  default ∅ (details_map !! py_str (dict_get "planet_id" planet)).

(** What a record holds apart from the clock-dependent fields (remaining
    hours, state, and the verdict derived from them). *)
Definition static_entry (e : extractor_entry) : string * pyval * pyval :=
  (product e, product_type_id e, expiry e).

Definition static_view (r : status_record)
  : pyval * pyval * pyval * pyval * pyval
    * list (string * pyval * pyval) * option spec_float * list factory_entry :=
  (planet_id r, planet_name r, planet_type r, solar_system_id r, character r,
   map static_entry (extractors r), storage_fill_pct r, factories r).

(** Two outcomes that raise the same exception or return values related
    by [R]. *)
Definition same_outcome {A : Type} (R : A -> A -> Prop) (a b : result A) : Prop :=
  match a, b with
  | Ok x, Ok y => R x y
  | Raise e1, Raise e2 => e1 = e2
  | _, _ => False
  end.

(** The commodity a route carries at pin [k], the pin being read from
    [pin_field] ([source_pin_id] or [destination_pin_id]): defined when the
    route is a mapping whose pin and commodity identifiers are both [int]s
    and the pin is [k]. *)
Definition routed (pin_field : string) (k : Z) (route : pyval) : option pyint :=
  match route with
  | PDict r =>
      p ← as_int (dict_get pin_field r);
      c ← as_int (dict_get "content_type_id" r);
      if decide (int_val p = k) then Some c else None
  | _ => None
  end.



(** The commodity types a factory side shows. *)
Definition shown (types : gmap Z (list pyint)) (k : Z) : list pyint :=
  py_sorted (py_set (default [] (types !! k))).

(** ** Further notions *)

(** A list or a mapping: the values that cannot be dictionary keys. *)
Definition is_container (v : pyval) : Prop :=
  match v with
  | PList _ | PDict _ => True
  | _ => False
  end.

(** An [int] too large for [float()]. *)
Definition overflows (v : pyval) : Prop :=
  exists z s, v = PInt z /\ F64.of_Z z = S754_infinity s.

(** An extractor entry that asks for attention. *)
Definition flagged (e : extractor_entry) : Prop :=
  status e = Expired
  \/ exists h, hours_remaining e = Some h /\ F64.leb h F64.c6 = true.

(** The detail an item of a details list supplies for the key [k]. *)
Definition detail_for `{PyRuntime} (k : string) (item : pyval) : option pydict :=
  match item with
  | PDict i =>
      match dict_get "planet_id" i with
      | PNone => None
      | planet_id =>
          if decide (py_str planet_id = k)
          then Some match dict_get "detail" i with
                    | PDict d => d
                    | _ => i
                    end
          else None
      end
  | _ => None
  end.

(** A pin the second loop over [pins] lists as a factory. *)
Definition is_factory (pin : pyval) : Prop :=
  exists p i,
    pin = PDict p
    /\ (dict_has "factory_details" p || dict_has "schematic_id" p = true)
    /\ as_int (dict_get "pin_id" p) = Some i.

(** A quantity that is not below zero: a number that is not a negative
    [int] and not a float with a minus sign. *)
Definition not_negative_amount (v : pyval) : Prop :=
  match v with
  | PInt z => 0 <= z
  | PFloat f => nonnegative f
  | _ => True
  end.

(** [isinstance(v, list)], giving the items. *)
Definition as_list (v : pyval) : option (list pyval) :=
  match v with
  | PList items => Some items
  | _ => None
  end.

(** The reply that carries a body and headers. *)
Definition reply_of (r : pyval * gmap string string) : reply :=
  Reply (fst r) (snd r).

(** The requests [get_pi_status] sends for one entry of the planet list. *)
Definition planet_requests (character_id : Z) (token : string)
    (planet : pyval) : list request :=
  match planet with
  | PDict p =>
      match as_int (dict_get "planet_id" p) with
      | Some i => [detail_request character_id i token; universe_request i]
      | None => []
      end
  | _ => []
  end.

(** The report of a colony for which nothing is known. *)
Definition empty_report (planet : pydict) : status_record :=
  {| planet_id := dict_get "planet_id" planet;
     planet_name := PStr "Planet None";
     planet_type := dict_get "planet_type" planet;
     solar_system_id := dict_get "solar_system_id" planet;
     character := PStr "unknown";
     extractors := [];
     storage_fill_pct := None;
     factories := [];
     needs_attention := false;
     action_required := "none" |}.

(** A price as Python holds it: a float is a binary64 datum. *)
Definition is_binary64 (a : pynum) : Prop :=
  match a with
  | NInt _ => True
  | NFloat f => valid_binary F64.prec F64.emax f = true
  end.

(** The exact value of a number in units of [2^-1074], the smallest step
    of binary64; infinities lie outside, NaN has no value. *)
Inductive ext : Type :=
| NegInf
| Fin (z : Z)
| PosInf.

Definition ext_compare (a b : ext) : comparison :=
  match a, b with
  | NegInf, NegInf => Eq
  | NegInf, _ => Lt
  | Fin _, NegInf => Gt
  | Fin x, Fin y => x ?= y
  | Fin _, PosInf => Lt
  | PosInf, PosInf => Eq
  | PosInf, _ => Gt
  end.

Definition float_rank (f : spec_float) : option ext :=
  match f with
  | S754_nan => None
  | S754_infinity s => Some (if s then NegInf else PosInf)
  | S754_zero _ => Some (Fin 0)
  | S754_finite s m e => Some (Fin (cond_Zopp s (Zpos m) * 2 ^ (e + 1074)))
  end.

Definition rank (a : pynum) : option ext :=
  match a with
  | NInt i => Some (Fin (int_val i * 2 ^ 1074))
  | NFloat f => float_rank f
  end.

(** The two sides of a subtraction are of one kind. *)
Definition same_kind (a b : pynum) : Prop :=
  match a, b with
  | NInt _, NInt _ | NFloat _, NFloat _ => True
  | _, _ => False
  end.

(** An [int] that [float()] refuses. *)
Definition too_large (a : pynum) : Prop :=
  exists i s, a = NInt i /\ F64.of_Z (int_val i) = S754_infinity s.

(** The request for one page of the orders of one side of the market. *)
Definition orders_page (type_id : Z) (order_type : string) (p : Z) : request :=
  {| endpoint := "/markets/10000002/orders/";
     token := None;
     page := Some p;
     params := Some [ ("type_id"%string, PInt type_id);
                      ("order_type"%string, PStr order_type) ];
     allow_404 := false |}.

(** ** Order and sign of binary64 results *)

Module F64Facts.

Lemma ltb_leb a b : F64.ltb a b = true -> F64.leb a b = true.
Proof.
  unfold F64.ltb, F64.leb, SFltb, SFleb.
  destruct (SFcompare a b) as [[]|]; congruence.
Qed.

Lemma leb_refl a : a <> S754_nan -> F64.leb a a = true.
Proof.
  unfold F64.leb, SFleb.
  destruct a as [[]|[]| |[] m e]; simpl; try congruence;
    rewrite Z.compare_refl;
    change (Pos.compare_cont Eq m m) with (Pos.compare m m);
    rewrite Pos.compare_refl; reflexivity.
Qed.

Lemma leb_not_nan_l a b : F64.leb a b = true -> a <> S754_nan.
Proof. intros Hle ->. discriminate Hle. Qed.

Lemma leb_not_nan_r a b : F64.leb a b = true -> b <> S754_nan.
Proof. intros Hle ->. destruct a as [| | |[]]; discriminate Hle. Qed.

Lemma leb_total a b :
  a <> S754_nan -> b <> S754_nan -> F64.ltb a b = false -> F64.leb b a = true.
Proof.
  unfold F64.ltb, F64.leb, SFltb, SFleb.
  destruct a as [[]|[]| |[] ma ea], b as [[]|[]| |[] mb eb];
    simpl; try congruence; intros _ _; cmp_cases.
Qed.

Lemma leb_trans a b c :
  F64.leb a b = true -> F64.leb b c = true -> F64.leb a c = true.
Proof.
  unfold F64.leb, SFleb.
  destruct a as [[]|[]| |[] ma ea], b as [[]|[]| |[] mb eb],
    c as [[]|[]| |[] mc ec]; simpl; try congruence; cmp_cases.
Qed.

Lemma nonpositive_not_gt_zero x : nonpositive x -> F64.ltb F64.zero x = false.
Proof. destruct x as [|[]| |[]]; cbn; intros; congruence. Qed.

Lemma nonnegative_not_lt_zero x : nonnegative x -> F64.ltb x F64.zero = false.
Proof. destruct x as [|[]| |[]]; cbn; intros; congruence. Qed.

(** The rounding step keeps the sign it is given. *)
Lemma round_aux_shape s m e l :
  let r := binary_round_aux F64.prec F64.emax s m e l in
  r = S754_zero s \/ r = S754_infinity s \/ r = S754_nan
  \/ exists m' e', r = S754_finite s m' e'.
Proof.
  unfold binary_round_aux.
  destruct (shr_fexp _ _ m e l) as [mrs' e'].
  destruct (shr_fexp _ _ _ e' loc_Exact) as [mrs'' e''].
  destruct (shr_m mrs''); [auto | | auto].
  destruct (e'' <=? _); eauto 6.
Qed.

Lemma div_positive_nonpositive x m e :
  nonpositive x -> nonpositive (F64.div x (S754_finite false m e)).
Proof.
  destruct x as [s|s| |s mx ex]; simpl; try done.
  - intros ->. done.
  - intros ->. unfold F64.div, SFdiv.
    destruct (SFdiv_core_binary _ _ _ _ _ _) as [[mz ez] lz].
    destruct (round_aux_shape (xorb true false) mz ez lz)
      as [-> | [-> | [-> | (m' & e' & ->)]]]; done.
Qed.

Lemma div_positive_nonnegative x m e :
  nonnegative x -> nonnegative (F64.div x (S754_finite false m e)).
Proof.
  destruct x as [s|s| |s mx ex]; simpl; try done.
  - intros ->. done.
  - intros ->. unfold F64.div, SFdiv.
    destruct (SFdiv_core_binary _ _ _ _ _ _) as [[mz ez] lz].
    destruct (round_aux_shape (xorb false false) mz ez lz)
      as [-> | [-> | [-> | (m' & e' & ->)]]]; done.
Qed.

Lemma round2_nonpositive x : nonpositive x -> nonpositive (F64.round2 x).
Proof.
  destruct x as [s|s| |s m e]; simpl; try done.
  intros ->. unfold F64.hundredths. destruct (F64.rne_scaled _ _); try done.
  apply (div_positive_nonpositive (S754_finite true _ 0)). done.
Qed.

Lemma round2_nonnegative x : nonnegative x -> nonnegative (F64.round2 x).
Proof.
  destruct x as [s|s| |s m e]; simpl; try done.
  intros ->. unfold F64.hundredths. destruct (F64.rne_scaled _ _); try done.
  apply (div_positive_nonnegative (S754_finite false _ 0)). done.
Qed.

Lemma round2_two_decimals x :
  two_decimals (F64.round2 x).
Proof.
  unfold two_decimals.
  destruct x as [s|s| |s m e]; simpl; [left; by exists s, 0 | | |]; eauto.
Qed.

(** [min(100.0, x)] never exceeds 100.0, NaN included. *)
Lemma py_min_le a x : a <> S754_nan -> F64.leb (F64.py_min a x) a = true.
Proof.
  intros Ha. unfold F64.py_min.
  destruct (F64.ltb x a) eqn:Hlt; [by apply ltb_leb | by apply leb_refl].
Qed.

End F64Facts.

(** ** Timestamps and extractor entries *)

Section ExtractorFacts.

Context `{PyRuntime}.


Lemma truthy_str s : truthy (PStr s) = true <-> s <> EmptyString.
Proof. destruct s; simpl; split; congruence. Qed.

Lemma parse_utc_timestamp_Some value t :
  parse_utc_timestamp value = Ok (Some t) <-> parses_to value t.
Proof.
  unfold parse_utc_timestamp, parses_to. split.
  - destruct (truthy value) eqn:Ht; simpl; [|done].
    destruct value as [| | | |s| |]; try done.
    apply truthy_str in Ht.
    destruct (fromisoformat_utc (replace_Z s)) as [t'|[]] eqn:Hp; try done.
    intros [= ->]. eauto.
  - intros (s & -> & Hs & Hp). apply truthy_str in Hs.
    by rewrite Hs, Hp.
Qed.



(** What the loop body appends, read off the pin. *)
Lemma extractor_of_pin_inv now pin e :
  extractor_of_pin now pin = Ok (Some e) ->
  exists p x dt name,
    pin = PDict p
    /\ dict_get "extractor_details" p = PDict x
    /\ parse_utc_timestamp (dict_get "expiry_time" p) = Ok dt
    /\ resolve_pi_product_name (dict_get "product_type_id" x) = Ok name
    /\ e = {| product := name;
              product_type_id := dict_get "product_type_id" x;
              expiry := dict_get "expiry_time" p;
              hours_remaining := (fun t => hours_until t now) <$> dt;
              status := classify ((fun t => hours_until t now) <$> dt) |}.
Proof.
  unfold extractor_of_pin.
  destruct pin as [| | | | | |p]; try done.
  destruct (dict_get "extractor_details" p) as [| | | | | |x] eqn:Hx; try done.
  destruct (parse_utc_timestamp _) as [dt|] eqn:Hdt; [|done]. simpl.
  destruct (resolve_pi_product_name _) as [name|] eqn:Hn; [|done]. simpl.
  intros [= <-]. by exists p, x, dt, name.
Qed.

Lemma hours_until_past t now :
  t <= now -> F64.ltb F64.zero (hours_until t now) = false.
Proof.
  intros Hle. apply F64Facts.nonpositive_not_gt_zero.
  unfold hours_until. apply F64Facts.round2_nonpositive.
  apply (F64Facts.div_positive_nonpositive _ 7916483719987200 (-41)).
  apply (F64Facts.div_positive_nonpositive _ 1000000 0).
  destruct (t - now) eqn:Hd; simpl; try done. lia.
Qed.

Lemma hours_until_future t now :
  now <= t -> F64.ltb (hours_until t now) F64.zero = false.
Proof.
  intros Hle. apply F64Facts.nonnegative_not_lt_zero.
  unfold hours_until. apply F64Facts.round2_nonnegative.
  apply (F64Facts.div_positive_nonnegative _ 7916483719987200 (-41)).
  apply (F64Facts.div_positive_nonnegative _ 1000000 0).
  destruct (t - now) eqn:Hd; simpl; try done. lia.
Qed.

(** ** C1, amended *)


End ExtractorFacts.

Section ExtractorClaims.

Context `{PyRuntime}.

Lemma classify_idle hours : classify hours = Idle <-> hours = None.
Proof.
  destruct hours as [h|]; simpl; [|done].
  destruct (F64.ltb _ _); split; done.
Qed.


(** C7.  The remaining time of an entry is the difference between the
    expiry and the evaluation time, in hours, rounded to two decimals: it
    is null exactly when the state is [idle], it has two decimals, and
    its sign is that of the difference. *)
Theorem remaining_hours_rounded now p e :
  extractor_of_pin now (PDict p) = Ok (Some e) ->
  (hours_remaining e = None <-> status e = Idle)
  /\ (forall t, parses_to (dict_get "expiry_time" p) t ->
        hours_remaining e
        = Some (F64.round2
                  (F64.div (F64.int_truediv (t - now) 1000000) F64.c3600)))
  /\ (forall h, hours_remaining e = Some h ->
        two_decimals h
        /\ exists t, parses_to (dict_get "expiry_time" p) t
                     /\ (t <= now -> F64.ltb F64.zero h = false)
                     /\ (now <= t -> F64.ltb h F64.zero = false)).
Proof.
  intros He.
  apply extractor_of_pin_inv in He
    as (p' & x & dt & name & [= <-] & _ & Hdt & _ & ->).
  simpl. split; [|split].
  - split; [intros Hn; by apply classify_idle|].
    intros Hi. by apply classify_idle in Hi.
  - intros t Ht. apply parse_utc_timestamp_Some in Ht.
    rewrite Ht in Hdt. by injection Hdt as <-.
  - intros h Hh. destruct dt as [t|]; [|done]. injection Hh as <-.
    split; [apply F64Facts.round2_two_decimals|].
    exists t. split; [by apply parse_utc_timestamp_Some|].
    split; [apply hours_until_past | apply hours_until_future].
Qed.

End ExtractorClaims.

(** ** The storage estimate *)

Section StorageFacts.

Context `{PyRuntime}.

Lemma capacity_nonzero k c : PI_STORAGE_CAPACITY_UNITS !! k = Some c -> c <> 0.
Proof.
  intros Hk. apply elem_of_list_to_map_2 in Hk.
  repeat (apply elem_of_cons in Hk as [[= _ ->] | Hk]; [done|]).
  by apply elem_of_nil in Hk.
Qed.

Lemma sum_amounts_add_all total items :
  sum_amounts total items = add_all total (omap entry_amount items).
Proof.
  revert total. induction items as [|item items IH]; intros total; [done|].
  destruct item as [| | | | | |i]; simpl; try apply IH.
  destruct (as_number (dict_get "amount" i)) as [[a|e]|]; simpl; auto.
Qed.



Lemma pin_fill_eligible pin capacity items :
  eligible pin capacity items ->
  pin_fill pin
  = (total ← sum_amounts F64.zero items; Ok (Some (fill_ratio total capacity))).
Proof.
  intros [Hcap Hcont]. destruct pin as [| | | | | |p]; try done.
  simpl in *.
  destruct (int_key (dict_get "type_id" p)) as [[k|]|]; try done. simpl.
  rewrite Hcap. pose proof (capacity_nonzero _ _ Hcap) as Hnz.
  apply Z.eqb_neq in Hnz. rewrite Hnz.
  destruct (truthy (dict_get "contents" p)).
  - destruct (dict_get "contents" p); try done. by injection Hcont as ->.
  - by injection Hcont as <-.
Qed.

Lemma pin_fill_not_eligible pin o :
  (forall capacity items, ~ eligible pin capacity items) ->
  pin_fill pin = Ok o -> o = None.
Proof.
  intros Hno. destruct pin as [| | | | | |p]; simpl; try congruence.
  destruct (int_key (dict_get "type_id" p)) as [[k|]|] eqn:Hk; simpl;
    try congruence.
  destruct (PI_STORAGE_CAPACITY_UNITS !! k) as [c|] eqn:Hc; [|congruence].
  destruct (c =? 0); [congruence|].
  destruct (truthy (dict_get "contents" p)) eqn:Ht.
  - destruct (dict_get "contents" p) as [| | | | |items|] eqn:Hd; try congruence.
    destruct (Hno c items). split; simpl; [by rewrite Hk | by rewrite Hd, Ht].
  - destruct (Hno c []). split; simpl; [by rewrite Hk | by rewrite Ht].
Qed.

Lemma pin_fill_Some pin f :
  pin_fill pin = Ok (Some f) ->
  exists capacity items total,
    eligible pin capacity items
    /\ sum_amounts F64.zero items = Ok total
    /\ f = fill_ratio total capacity.
Proof.
  intros Hf. destruct pin as [| | | | | |p]; try done. simpl in Hf.
  destruct (int_key (dict_get "type_id" p)) as [[k|]|] eqn:Hk; try done.
  simpl in Hf.
  destruct (PI_STORAGE_CAPACITY_UNITS !! k) as [c|] eqn:Hc; [|done].
  destruct (c =? 0); [done|].
  assert (Hgo : forall items,
    contents_of (PDict p) = Some items ->
    (total_amount ← sum_amounts F64.zero items;
     Ok (Some (fill_ratio total_amount c))) = Ok (Some f) ->
    exists capacity items total,
      eligible (PDict p) capacity items
      /\ sum_amounts F64.zero items = Ok total
      /\ f = fill_ratio total capacity).
  { intros items Hitems Hsum.
    destruct (sum_amounts F64.zero items) as [total|] eqn:Ht; [|done].
    injection Hsum as <-. exists c, items, total.
    split; [|done]. split; [simpl; by rewrite Hk | done]. }
  destruct (truthy (dict_get "contents" p)) eqn:Ht.
  - destruct (dict_get "contents" p) as [| | | | |items|] eqn:Hd; try done.
    apply (Hgo items); [simpl; by rewrite Hd, Ht | done].
  - apply (Hgo []); [simpl; by rewrite Ht | done].
Qed.

Lemma fill_ratio_le_100 total capacity :
  F64.leb (fill_ratio total capacity) F64.c100 = true.
Proof. by apply F64Facts.py_min_le. Qed.

Lemma pin_fill_le_100 pin f :
  pin_fill pin = Ok (Some f) -> F64.leb f F64.c100 = true.
Proof.
  intros (c & items & total & _ & _ & ->)%pin_fill_Some.
  apply fill_ratio_le_100.
Qed.

Lemma update_max_spec m fill :
  (forall a, m = Some a -> a <> S754_nan) -> fill <> S754_nan ->
  exists f, update_max m fill = Some f
    /\ (f = fill \/ m = Some f)
    /\ F64.leb fill f = true
    /\ (forall a, m = Some a -> F64.leb a f = true).
Proof.
  intros Hm Hfill. destruct m as [a|]; simpl.
  - destruct (F64.ltb a fill) eqn:Hlt.
    + exists fill. repeat split; auto using F64Facts.leb_refl.
      intros ? [= <-]. by apply F64Facts.ltb_leb.
    + exists a. repeat split; auto.
      * apply F64Facts.leb_total; auto.
      * intros ? [= <-]. apply F64Facts.leb_refl; auto.
  - exists fill. repeat split; auto using F64Facts.leb_refl. done.
Qed.

(** Invariant of the loop of [estimate_storage_fill_pct]. *)
Lemma storage_loop_spec pins : forall max_fill r,
  (forall a, max_fill = Some a -> a <> S754_nan) ->
  storage_loop max_fill pins = Ok r ->
  (forall pin, pin ∈ pins -> exists o, pin_fill pin = Ok o)
  /\ (r = None
      <-> max_fill = None /\ forall pin, pin ∈ pins -> pin_fill pin = Ok None)
  /\ (forall f, r = Some f ->
        (max_fill = Some f
         \/ exists pin, pin ∈ pins /\ pin_fill pin = Ok (Some f))
        /\ (forall a, max_fill = Some a -> F64.leb a f = true)
        /\ (forall pin g, pin ∈ pins -> pin_fill pin = Ok (Some g) ->
              F64.leb g f = true)).
Proof.
  induction pins as [|pin pins IH]; intros max_fill r Hnan Hloop.
  - injection Hloop as <-. split; [by intros ? ?%elem_of_nil|].
    split.
    + split; [intros ->; split; [done | by intros ? ?%elem_of_nil] | by intros [-> _]].
    + intros f ->. split; [by left|].
      split; [|by intros ? ? ?%elem_of_nil].
      intros a [= <-]. apply F64Facts.leb_refl. by apply Hnan.
  - simpl in Hloop.
    destruct (pin_fill pin) as [[fill|]|] eqn:Hpin; [| |done]; simpl in Hloop.
    + pose proof (pin_fill_le_100 _ _ Hpin) as Hle.
      pose proof (F64Facts.leb_not_nan_l _ _ Hle) as Hfill.
      destruct (update_max_spec max_fill fill Hnan Hfill)
        as (m' & Hm' & Hor & Hfm & Hacc).
      rewrite Hm' in Hloop.
      apply IH in Hloop as (Hok & Hnone & Hsome).
      2:{ intros a [= <-]. destruct Hor as [-> | Hor]; [done|].
          by apply Hnan. }
      split; [|split].
      * intros q [-> | Hq]%elem_of_cons; eauto.
      * split; [intros Hr; apply Hnone in Hr as [? _]; done|].
        intros [_ Hall]. specialize (Hall pin (list_elem_of_here _ _)).
        congruence.
      * intros f Hf. destruct (Hsome f Hf) as (Hwhere & Hprev & Hall).
        specialize (Hprev m' eq_refl).
        split; [|split].
        -- destruct Hwhere as [[= <-] | (q & Hq & Hqf)].
           ++ destruct Hor as [-> | Hor]; [|by left].
              right. exists pin. split; [apply list_elem_of_here | done].
           ++ right. exists q. split; [by apply list_elem_of_further | done].
        -- intros a Ha. eapply F64Facts.leb_trans; [by apply Hacc | done].
        -- intros q g [-> | Hq]%elem_of_cons Hg.
           ++ rewrite Hpin in Hg. injection Hg as <-.
              eapply F64Facts.leb_trans; done.
           ++ by eapply Hall.
    + apply IH in Hloop as (Hok & Hnone & Hsome); [|done].
      split; [|split].
      * intros q [-> | Hq]%elem_of_cons; eauto.
      * rewrite Hnone. split; intros [Hm Hall]; (split; [done|]).
        -- intros q [-> | Hq]%elem_of_cons; auto.
        -- intros q Hq. apply Hall. by apply list_elem_of_further.
      * intros f Hf. destruct (Hsome f Hf) as (Hwhere & Hprev & Hall).
        split; [|split; [done|]].
        -- destruct Hwhere as [? | (q & Hq & Hqf)]; [by left|].
           right. exists q. split; [by apply list_elem_of_further | done].
        -- intros q g [-> | Hq]%elem_of_cons Hg; [congruence|].
           by eapply Hall.
Qed.

End StorageFacts.

Section StorageClaims.

Context `{PyRuntime}.

(** C4 (amended).  The storage fill percentage of a colony is the maximum,
    over the pins whose type is in the capacity table and whose contents
    are absent, empty or a list, of total quantity / capacity * 100 rounded
    to two decimals and clamped to 100.0; it is never above 100.0; it is
    null exactly when the colony has no such pin; and the storage message
    is added exactly when the value is at least 80.0. *)
Theorem storage_fill_is_clamped_maximum pins r :
  estimate_storage_fill_pct (PList pins) = Ok r ->
  (r = None
   <-> forall pin, pin ∈ pins ->
       forall capacity items, ~ eligible pin capacity items)
  /\ (forall f, r = Some f ->
        F64.leb f F64.c100 = true
        /\ (exists pin capacity items total,
              pin ∈ pins /\ eligible pin capacity items
              /\ sum_amounts F64.zero items = Ok total
              /\ f = fill_ratio total capacity)
        /\ (forall pin capacity items total,
              pin ∈ pins -> eligible pin capacity items ->
              sum_amounts F64.zero items = Ok total ->
              F64.leb (fill_ratio total capacity) f = true))
  /\ (storage_attention r <> []
      <-> exists f, r = Some f /\ F64.leb F64.c80 f = true).
Proof.
  unfold estimate_storage_fill_pct. simpl. intros Hloop.
  apply storage_loop_spec in Hloop as (Hok & Hnone & Hsome); [|done].
  split; [|split].
  - rewrite Hnone. split.
    + intros [_ Hall] pin Hin capacity items Hel.
      specialize (Hall pin Hin). rewrite (pin_fill_eligible _ _ _ Hel) in Hall.
      by destruct (sum_amounts F64.zero items).
    + intros Hno. split; [done|]. intros pin Hin.
      destruct (Hok pin Hin) as [o Ho]. rewrite Ho.
      by rewrite (pin_fill_not_eligible pin o (Hno pin Hin) Ho).
  - intros f Hf. destruct (Hsome f Hf) as ([? | (pin & Hin & Hpin)] & _ & Hall);
      [done|].
    split; [by eapply pin_fill_le_100|]. split.
    + apply pin_fill_Some in Hpin as (c & items & total & Hel & Hsum & ->).
      by exists pin, c, items, total.
    + intros q c items total Hq Hel Hsum. apply (Hall q); [done|].
      by rewrite (pin_fill_eligible _ _ _ Hel), Hsum.
  - unfold storage_attention. destruct r as [f|].
    + destruct (F64.leb F64.c80 f) eqn:Hle.
      * split; [eauto | done].
      * split; [done|]. intros (f' & [= <-] & Hf'). congruence.
    + split; [done|]. by intros (f' & ? & _).
Qed.

End StorageClaims.

(** ** Record assembly *)

Section AssemblyFacts.

Context `{PyRuntime}.

Lemma fromkeys_fold l : forall acc,
  fold_left fromkeys_step l acc
  = acc ++ filter (fun y => y ∉ acc) (first_occurrences l).
Proof.
  induction l as [|x l IH]; intros acc; simpl.
  { by rewrite app_nil_r. }
  rewrite IH. unfold fromkeys_step. rewrite filter_cons.
  case_bool_decide as Hx.
  - rewrite decide_False by (intros Hn; by apply Hn).
    f_equal. rewrite list_filter_filter. apply list_filter_iff.
    intros y. split; [|tauto]. intros Hy. split; [done|].
    by intros ->.
  - rewrite decide_True by done.
    rewrite <- app_assoc. simpl. do 2 f_equal.
    rewrite list_filter_filter. apply list_filter_iff.
    intros y. rewrite not_elem_of_app, list_elem_of_singleton. tauto.
Qed.

Lemma dict_fromkeys_first_occurrences l :
  dict_fromkeys l = first_occurrences l.
Proof.
  unfold dict_fromkeys. rewrite fromkeys_fold. simpl.
  induction (first_occurrences l) as [|y l' IH]; [done|].
  rewrite filter_cons, decide_True by apply not_elem_of_nil.
  by rewrite IH.
Qed.

Lemma dict_fromkeys_cons x l :
  dict_fromkeys (x :: l) = x :: filter (fun y => y ≠ x) (dict_fromkeys l).
Proof. by rewrite !dict_fromkeys_first_occurrences. Qed.

Lemma elem_of_dict_fromkeys x l : x ∈ dict_fromkeys l <-> x ∈ l.
Proof.
  rewrite dict_fromkeys_first_occurrences.
  induction l as [|y l IH]; simpl; [done|].
  rewrite !elem_of_cons, list_elem_of_filter, IH.
  destruct (decide (x = y)); tauto.
Qed.

Lemma NoDup_dict_fromkeys l : NoDup (dict_fromkeys l).
Proof.
  rewrite dict_fromkeys_first_occurrences.
  induction l as [|y l IH]; simpl; [constructor|].
  constructor; [|by apply NoDup_filter].
  rewrite list_elem_of_filter. tauto.
Qed.

Lemma dict_fromkeys_sublist l : dict_fromkeys l `sublist_of` l.
Proof.
  rewrite dict_fromkeys_first_occurrences.
  induction l as [|y l IH]; simpl; [done|].
  apply sublist_skip. etrans; [apply sublist_filter | done].
Qed.

Lemma extractor_loop_reasons now pins es rs :
  extractor_loop now pins = Ok (es, rs) ->
  rs = concat (map extractor_attention es).
Proof.
  revert es rs. induction pins as [|pin pins IH]; intros es rs; simpl.
  { by intros [= <- <-]. }
  destruct (extractor_of_pin now pin) as [e|]; [|done]. simpl.
  destruct (extractor_loop now pins) as [[es' rs']|]; [|done]. simpl.
  specialize (IH es' rs' eq_refl).
  destruct e as [entry|]; intros [= <- <-]; simpl; by rewrite IH.
Qed.

(** The steps of one iteration of the loop over the planets. *)
Lemma colony_status_inv now details_map planet r :
  colony_status now details_map planet = Ok r ->
  let planet_id := dict_get "planet_id" planet in
  let detail := detail_of details_map planet in
  let pins := dict_get_default "pins" (PList []) detail in
  let routes := dict_get_default "routes" (PList []) detail in
  exists pin_list es rs route_list fs fill,
    py_iter pins = Ok pin_list
    /\ extractor_loop now pin_list = Ok (es, rs)
    /\ py_iter routes = Ok route_list
    /\ factory_loop (fst (aggregate_routes route_list))
         (snd (aggregate_routes route_list)) pin_list = Ok fs
    /\ estimate_storage_fill_pct pins = Ok fill
    /\ r = {| planet_id := planet_id;
              planet_name :=
                dict_get_default "_planet_name"
                  (PStr ("Planet " +:+ py_str planet_id)) detail;
              planet_type := dict_get "planet_type" planet;
              solar_system_id := dict_get "solar_system_id" planet;
              character :=
                dict_get_default "_character_name" (PStr "unknown") detail;
              extractors := es;
              storage_fill_pct := fill;
              factories := fs;
              needs_attention :=
                match dict_fromkeys (rs ++ storage_attention fill) with
                | [] => false
                | _ => true
                end;
              action_required :=
                match dict_fromkeys (rs ++ storage_attention fill) with
                | [] => "none"
                | _ => py_join "; "
                         (dict_fromkeys (rs ++ storage_attention fill))
                end%string |}.
Proof.
  unfold colony_status, detail_of. intros Hr. simpl.
  destruct (py_iter (dict_get_default "pins" _ _)) as [pin_list|] eqn:Hp;
    [|done]. simpl in Hr.
  destruct (extractor_loop now pin_list) as [[es rs]|] eqn:He; [|done].
  simpl in Hr.
  destruct (py_iter (dict_get_default "routes" _ _)) as [route_list|] eqn:Hro;
    [|done]. simpl in Hr.
  destruct (aggregate_routes route_list) as [inc out] eqn:Hagg.
  destruct (factory_loop inc out pin_list) as [fs|] eqn:Hf; [|done].
  simpl in Hr.
  destruct (estimate_storage_fill_pct _) as [fill|] eqn:Hs; [|done].
  simpl in Hr. injection Hr as <-.
  exists pin_list, es, rs, route_list, fs, fill.
  rewrite Hagg. by repeat split.
Qed.

(** C5.  The attention reasons of a colony are those of its extractor
    entries in encounter order, at most one each, followed by the storage
    message if there is one; they are de-duplicated keeping the first
    occurrence of each message in place; [needs_attention] holds exactly
    when the de-duplicated list is not empty, and the reason string joins
    that list with a semicolon and a space, or is [none] when it is empty. *)
Theorem attention_verdict now details_map planet r :
  colony_status now details_map planet = Ok r ->
  let reasons :=
    concat (map extractor_attention (extractors r))
    ++ storage_attention (storage_fill_pct r) in
  let unique := dict_fromkeys reasons in
  Forall (fun e => (length (extractor_attention e) <= 1)%nat) (extractors r)
  /\ (length (storage_attention (storage_fill_pct r)) <= 1)%nat
  /\ NoDup unique
  /\ (forall x, x ∈ unique <-> x ∈ reasons)
  /\ unique `sublist_of` reasons
  /\ (forall x l,
        dict_fromkeys (x :: l)
        = x :: filter (fun y => y ≠ x) (dict_fromkeys l))
  /\ (needs_attention r = true <-> unique <> [])
  /\ action_required r
     = match unique with
       | [] => "none"
       | _ => String.concat "; " unique
       end%string.
Proof.
  intros Hr.
  apply colony_status_inv in Hr
    as (pin_list & es & rs & route_list & fs & fill
        & _ & Hes & _ & _ & _ & ->).
  apply extractor_loop_reasons in Hes as ->. simpl.
  split; [|split; [|split; [|split; [|split; [|split; [|split]]]]]].
  - apply Forall_forall. intros e _. unfold extractor_attention.
    destruct (status e); simpl; try lia;
      destruct (hours_remaining e) as [h|]; simpl; try lia;
      destruct (F64.leb h F64.c6); simpl; lia.
  - unfold storage_attention. destruct fill as [f|]; simpl; [|lia].
    destruct (F64.leb F64.c80 f); simpl; lia.
  - apply NoDup_dict_fromkeys.
  - intros x. apply elem_of_dict_fromkeys.
  - apply dict_fromkeys_sublist.
  - apply dict_fromkeys_cons.
  - by destruct (dict_fromkeys _).
  - by destruct (dict_fromkeys _).
Qed.

End AssemblyFacts.

(** ** The loop over the planets *)

Section PlanetFacts.

Context `{PyRuntime}.

(** C2.  Inputs of the declared types on which an exception escapes the
    engine: a detail whose [pins] is null, an expiry that is a number, a
    pin type that is a list, and a quantity beyond the float range. *)
Theorem exceptions_escape_the_engine now :
  parse_pi_status now (PList [Samples.planet 7])
    (PDict {[ "7" := PDict {[ "pins" := PNone ]} ]})
  = Raise TypeError
  /\ parse_pi_status now (PList [Samples.planet 7])
       (Samples.details "7" [Samples.extractor_pin (PInt 1704110400)] [])
     = Raise AttributeError
  /\ parse_pi_status now (PList [Samples.planet 7])
       (Samples.details "7" [Samples.storage_pin (PList []) (PInt 1)] [])
     = Raise TypeError
  /\ parse_pi_status now (PList [Samples.planet 7])
       (Samples.details "7"
          [Samples.storage_pin (PInt 2544) (PInt (10 ^ 400))] [])
     = Raise OverflowError.
Proof. repeat split; vm_compute; reflexivity. Qed.

Lemma extractor_of_pin_clock now1 now2 pin :
  same_outcome (fun a b => static_entry <$> a = static_entry <$> b)
    (extractor_of_pin now1 pin) (extractor_of_pin now2 pin).
Proof.
  unfold extractor_of_pin.
  destruct pin as [| | | | | |p]; try done.
  destruct (dict_get "extractor_details" p) as [| | | | | |x]; try done.
  destruct (parse_utc_timestamp _) as [dt|]; [|done]. simpl.
  by destruct (resolve_pi_product_name _).
Qed.

Lemma extractor_loop_clock now1 now2 pins :
  same_outcome (fun a b => map static_entry a.1 = map static_entry b.1)
    (extractor_loop now1 pins) (extractor_loop now2 pins).
Proof.
  induction pins as [|pin pins IH]; simpl; [done|].
  pose proof (extractor_of_pin_clock now1 now2 pin) as Hpin.
  destruct (extractor_of_pin now1 pin) as [e1|],
    (extractor_of_pin now2 pin) as [e2|]; try done. simpl in *.
  destruct (extractor_loop now1 pins) as [[es1 rs1]|],
    (extractor_loop now2 pins) as [[es2 rs2]|]; try done. simpl in *.
  destruct e1, e2; simpl in *; try done; congruence.
Qed.

Lemma colony_status_clock now1 now2 details_map planet :
  same_outcome (fun a b => static_view a = static_view b)
    (colony_status now1 details_map planet)
    (colony_status now2 details_map planet).
Proof.
  unfold colony_status.
  destruct (py_iter (dict_get_default "pins" _ _)) as [pin_list|]; [|done].
  simpl.
  pose proof (extractor_loop_clock now1 now2 pin_list) as Hext.
  destruct (extractor_loop now1 pin_list) as [[es1 rs1]|],
    (extractor_loop now2 pin_list) as [[es2 rs2]|]; try done. simpl in *.
  destruct (py_iter (dict_get_default "routes" _ _)) as [route_list|];
    [|done]. simpl.
  destruct (aggregate_routes route_list) as [inc out].
  destruct (factory_loop inc out pin_list) as [fs|]; [|done]. simpl.
  destruct (estimate_storage_fill_pct _) as [fill|]; [|done]. simpl.
  unfold static_view. simpl. by rewrite Hext.
Qed.

Lemma status_loop_clock now1 now2 details_map planets :
  same_outcome (fun a b => map static_view a = map static_view b)
    (status_loop now1 details_map planets)
    (status_loop now2 details_map planets).
Proof.
  induction planets as [|planet planets IH]; simpl; [done|].
  destruct planet as [| | | | | |p]; try done.
  pose proof (colony_status_clock now1 now2 details_map p) as Hp.
  destruct (colony_status now1 details_map p) as [r1|],
    (colony_status now2 details_map p) as [r2|]; try done. simpl in *.
  destruct (status_loop now1 details_map planets) as [rs1|],
    (status_loop now2 details_map planets) as [rs2|]; try done. simpl in *.
  by rewrite Hp, IH.
Qed.

(** C9 (amended).  The engine is a function of its two arguments and of
    the evaluation instant it reads from the system clock.  Two invocations
    on identical inputs, at whatever instants, raise the same exception or
    return sequences of records that agree on everything but the remaining
    hours and state of the extractor entries and the attention verdict
    derived from them; at the same instant they agree on these too. *)
Theorem engine_depends_on_inputs_and_clock now1 now2 planets_data planet_details :
  same_outcome (fun a b => map static_view a = map static_view b)
    (parse_pi_status now1 planets_data planet_details)
    (parse_pi_status now2 planets_data planet_details)
  /\ same_outcome eq
       (parse_pi_status now1 planets_data planet_details)
       (parse_pi_status now1 planets_data planet_details).
Proof.
  split.
  - unfold parse_pi_status.
    destruct (py_iter planets_data) as [planets|]; [|done]. simpl.
    apply status_loop_clock.
  - by destruct (parse_pi_status now1 planets_data planet_details).
Qed.

(** C10 (amended).  A planet entry that is a record without a colony
    identifier (absent or null) is not skipped: its record has a null
    colony identifier, its detail is the one stored under the string key
    [None], its display name is that detail's [_planet_name] when it has
    one and the synthetic label [Planet None] otherwise, and with no such
    detail the record is the empty report named [Planet None]. *)
Theorem colony_without_identifier now details_map (planet : pydict) :
  planet !! "planet_id" = None \/ planet !! "planet_id" = Some PNone ->
  (forall rest,
      status_loop now details_map (PDict planet :: rest)
      = (r ← colony_status now details_map planet;
         rs ← status_loop now details_map rest;
         Ok (r :: rs)))
  /\ (forall r,
        colony_status now details_map planet = Ok r ->
        planet_id r = PNone
        /\ planet_name r
           = dict_get_default "_planet_name" (PStr "Planet None")
               (default ∅ (details_map !! "None")))
  /\ (forall details_map',
        details_map' !! "None" = details_map !! "None" ->
        colony_status now details_map' planet
        = colony_status now details_map planet)
  /\ (details_map !! "None" = None ->
      colony_status now details_map planet
      = Ok {| planet_id := PNone;
              planet_name := PStr "Planet None";
              planet_type := dict_get "planet_type" planet;
              solar_system_id := dict_get "solar_system_id" planet;
              character := PStr "unknown";
              extractors := [];
              storage_fill_pct := None;
              factories := [];
              needs_attention := false;
              action_required := "none" |}).
Proof.
  intros Habsent.
  assert (Hid : dict_get "planet_id" planet = PNone).
  { unfold dict_get. by destruct Habsent as [-> | ->]. }
  split; [done|]. split; [|split].
  - intros r Hr. apply colony_status_inv in Hr as (? & ? & ? & ? & ? & ? & _ & _ & _ & _ & _ & ->).
    unfold detail_of. rewrite Hid. done.
  - intros details_map' Heq. unfold colony_status. rewrite Hid. simpl.
    by rewrite Heq.
  - intros Hnone. unfold colony_status. rewrite Hid. simpl.
    rewrite Hnone. reflexivity.
Qed.

End PlanetFacts.

(** ** Route aggregation *)

Section RouteFacts.

Context `{PyRuntime}.

Lemma lookup_setdefault_append k v m j :
  default [] (setdefault_append k v m !! j)
  = default [] (m !! j) ++ (if decide (k = j) then [v] else []).
Proof.
  unfold setdefault_append. rewrite lookup_insert.
  destruct (decide (k = j)) as [->|]; simpl; [done | by rewrite app_nil_r].
Qed.

Lemma route_step_lookup acc route k :
  default [] ((route_step acc route).2 !! k)
  = default [] (acc.2 !! k)
    ++ option_list (routed "source_pin_id" k route)
  /\ default [] ((route_step acc route).1 !! k)
     = default [] (acc.1 !! k)
       ++ option_list (routed "destination_pin_id" k route).
Proof.
  unfold route_step, routed.
  destruct route as [| | | | | |r]; simpl; rewrite ?app_nil_r; [done..|].
  destruct (as_int (dict_get "content_type_id" r)) as [c|]; simpl.
  - split.
    + destruct (as_int (dict_get "source_pin_id" r)) as [s|]; simpl;
        [|by rewrite app_nil_r].
      rewrite lookup_setdefault_append. by destruct (decide _).
    + destruct (as_int (dict_get "destination_pin_id" r)) as [d|]; simpl;
        [|by rewrite app_nil_r].
      rewrite lookup_setdefault_append. by destruct (decide _).
  - split.
    + destruct (as_int (dict_get "source_pin_id" r)); simpl;
        by rewrite app_nil_r.
    + destruct (as_int (dict_get "destination_pin_id" r)); simpl;
        by rewrite app_nil_r.
Qed.

Lemma fold_route_step_lookup routes : forall acc k,
  default [] ((fold_left route_step routes acc).2 !! k)
  = default [] (acc.2 !! k) ++ omap (routed "source_pin_id" k) routes
  /\ default [] ((fold_left route_step routes acc).1 !! k)
     = default [] (acc.1 !! k) ++ omap (routed "destination_pin_id" k) routes.
Proof.
  induction routes as [|route routes IH]; intros acc k; simpl.
  { by rewrite !app_nil_r. }
  destruct (IH (route_step acc route) k) as [-> ->].
  destruct (route_step_lookup acc route k) as [-> ->].
  rewrite <- !app_assoc.
  split; f_equal; by destruct (routed _ k route).
Qed.

Lemma aggregate_routes_lookup routes k :
  default [] ((aggregate_routes routes).2 !! k)
  = omap (routed "source_pin_id" k) routes
  /\ default [] ((aggregate_routes routes).1 !! k)
     = omap (routed "destination_pin_id" k) routes.
Proof.
  unfold aggregate_routes.
  destruct (fold_route_step_lookup routes (∅, ∅) k) as [-> ->].
  simpl. by rewrite !lookup_empty.
Qed.


(** [sorted(set(l))] *)




Lemma sorted_insert_perm x l : sorted_insert x l ≡ₚ x :: l.
Proof.
  induction l as [|y l IH]; simpl; [done|].
  destruct (int_val y <? int_val x); [|done].
  rewrite IH. apply Permutation_swap.
Qed.

Lemma py_sorted_perm l : py_sorted l ≡ₚ l.
Proof.
  induction l as [|x l IH]; simpl; [done|].
  unfold py_sorted in *. simpl. by rewrite sorted_insert_perm, IH.
Qed.













End RouteFacts.

Section RouteClaims.

Context `{PyRuntime}.


End RouteClaims.

(** ** Exceptions of the engine *)

Section ExceptionFacts.

Context `{PyRuntime}.

Lemma int_key_raises v e :
  int_key v = Raise e <-> is_container v /\ e = TypeError.
Proof.
  destruct v; simpl; split; try done; try (by intros [[] _]).
  - by intros [= <-].
  - by intros [_ ->].
  - by intros [= <-].
  - by intros [_ ->].
Qed.

Lemma int_key_of_pyint i : int_key (of_pyint i) = Ok (Some (int_val i)).
Proof. by destruct i. Qed.

(** [parse_utc_timestamp] raises [AttributeError] on a value that is truthy
    and not a string, turns a [ValueError] of the ISO parser into [None],
    and lets every other exception of the parser through. *)
Theorem parse_utc_timestamp_raises value e :
  parse_utc_timestamp value = Raise e
  <-> (truthy value = true /\ (forall s, value <> PStr s)
       /\ e = AttributeError)
      \/ (exists s, value = PStr s /\ s <> EmptyString
                    /\ fromisoformat_utc (replace_Z s) = Raise e
                    /\ e <> ValueError).
Proof.
  unfold parse_utc_timestamp. split.
  - destruct (truthy value) eqn:Ht; simpl; [|done].
    destruct value as [| | | |s| |];
      try (intros [= <-]; left; by repeat split).
    apply truthy_str in Ht. intros Hr. right. exists s.
    destruct (fromisoformat_utc (replace_Z s)) as [t|[]]; try done;
      injection Hr as <-; by repeat split.
  - intros [(Ht & Hs & ->) | (s & -> & Hne & Hp & Hv)].
    + rewrite Ht. simpl. destruct value; try done. by destruct (Hs s).
    + apply truthy_str in Hne. rewrite Hne, Hp. simpl. by destruct e.
Qed.

Lemma bind_Ok {A B : Type} (a : A) (k : A -> result B) : Ok a ≫= k = k a.
Proof. reflexivity. Qed.

Lemma bind_Raise {A B : Type} (e : exn) (k : A -> result B) :
  Raise e ≫= k = Raise e.
Proof. reflexivity. Qed.

Lemma none_or_not (v : pyval) : v = PNone \/ v <> PNone.
Proof. destruct v; auto; by right. Qed.

Lemma catalog_name_capital k name :
  PI_PRODUCTS !! k = Some name ->
  exists c rest, name = String c rest /\ c <> "u"%char /\ c <> "n"%char.
Proof.
  intros Hk. apply elem_of_list_to_map_2 in Hk.
  repeat (apply elem_of_cons in Hk as [[= _ ->] | Hk];
          [eexists _, _; split; [reflexivity | split; discriminate]|]).
  by apply elem_of_nil in Hk.
Qed.

(** [resolve_pi_product_name] raises exactly on a list or a mapping, and
    then [TypeError]; it answers [unknown] exactly for [None]; a value that
    equals a catalog key, floats and booleans included, gives the catalog
    name, and any other gives the label [type_id:] followed by [str] of the
    value. *)
Theorem resolve_pi_product_name_outcomes type_id :
  (forall e, resolve_pi_product_name type_id = Raise e
             <-> is_container type_id /\ e = TypeError)
  /\ (resolve_pi_product_name type_id = Ok "unknown"%string
      <-> type_id = PNone)
  /\ (forall k name,
        int_key type_id = Ok (Some k) -> PI_PRODUCTS !! k = Some name ->
        resolve_pi_product_name type_id = Ok name)
  /\ (forall k,
        type_id <> PNone -> int_key type_id = Ok k ->
        k ≫= (PI_PRODUCTS !!.) = None ->
        resolve_pi_product_name type_id
        = Ok ("type_id:" +:+ py_str type_id)%string).
Proof.
  assert (Hshape : type_id <> PNone ->
    resolve_pi_product_name type_id
    = (k ← int_key type_id;
       Ok (default ("type_id:" +:+ py_str type_id)%string
             (k ≫= (PI_PRODUCTS !!.))))).
  { by destruct type_id. }
  split; [|split; [|split]].
  - intros e. destruct (none_or_not type_id) as [->|Hne].
    { split; [done | by intros [[] _]]. }
    rewrite (Hshape Hne), <- int_key_raises.
    destruct (int_key type_id); rewrite ?bind_Ok, ?bind_Raise;
      split; congruence.
  - split; [|by intros ->].
    destruct (none_or_not type_id) as [->|Hne]; [done|].
    rewrite (Hshape Hne).
    destruct (int_key type_id) as [k|]; rewrite ?bind_Ok, ?bind_Raise;
      [|done].
    destruct (k ≫= (PI_PRODUCTS !!.)) as [name|] eqn:Hk.
    + destruct k as [k|]; [|done].
      change (PI_PRODUCTS !! k = Some name) in Hk.
      destruct (catalog_name_capital _ _ Hk) as (c & rest & -> & Hc & _).
      intros [= -> _]. done.
    + by intros [= ?].
  - intros k name Hk Hname. rewrite Hshape by (by intros ->).
    rewrite Hk, bind_Ok.
    change (Some k ≫= (PI_PRODUCTS !!.)) with (PI_PRODUCTS !! k).
    by rewrite Hname.
  - intros k Hne Hk Hnone. by rewrite (Hshape Hne), Hk, bind_Ok, Hnone.
Qed.

Lemma resolve_pyint i :
  exists name c rest,
    resolve_pi_product_name (of_pyint i) = Ok name
    /\ name = String c rest /\ c <> "u"%char.
Proof.
  destruct (resolve_pi_product_name_outcomes (of_pyint i))
    as (_ & _ & Hfound & Hlabel).
  destruct (PI_PRODUCTS !! int_val i) as [name|] eqn:Hk.
  - destruct (catalog_name_capital _ _ Hk) as (c & rest & -> & Hc & _).
    exists (String c rest), c, rest. split; [|done].
    apply (Hfound (int_val i)); [apply int_key_of_pyint | done].
  - eexists _, "t"%char, _. split; [|split; [reflexivity | done]].
    apply (Hlabel (Some (int_val i)));
      [by destruct i | apply int_key_of_pyint | done].
Qed.

End ExceptionFacts.

Section PinExceptionFacts.

Context `{PyRuntime}.

Lemma as_number_raises v e :
  as_number v = Some (Raise e) <-> overflows v /\ e = OverflowError.
Proof.
  unfold overflows. split.
  - destruct v as [|b|z|f|s|l|d]; try done. unfold as_number.
    destruct (F64.of_Z z) eqn:Hz; try done. intros [= <-]. eauto 6.
  - intros [(z & s & -> & Hz) ->]. unfold as_number. by rewrite Hz.
Qed.

(** The first exception among the converted quantities is the one the sum
    raises. *)
Lemma add_all_outcome amounts : forall total,
  (exists t, add_all total amounts = Ok t
             /\ forall e, Raise e ∉ amounts)
  \/ (exists e, add_all total amounts = Raise e /\ Raise e ∈ amounts).
Proof.
  induction amounts as [|a amounts IH]; intros total; simpl.
  { left. exists total. split; [done|]. intros e. apply not_elem_of_nil. }
  destruct a as [x|e]; simpl.
  - destruct (IH (F64.add total x)) as [(t & Ht & Hno) | (e & He & Hin)].
    + left. exists t. split; [done|]. intros e [?|?]%elem_of_cons; [done|].
      by apply (Hno e).
    + right. exists e. split; [done | by right].
  - right. exists e. split; [done | left].
Qed.

Lemma sum_amounts_raises items e :
  sum_amounts F64.zero items = Raise e ->
  e = OverflowError
  /\ exists i, PDict i ∈ items /\ overflows (dict_get "amount" i).
Proof.
  rewrite sum_amounts_add_all. intros Hr.
  destruct (add_all_outcome (omap entry_amount items) F64.zero)
    as [(t & Ht & _) | (e' & He' & Hin)]; [congruence|].
  rewrite Hr in He'. injection He' as <-.
  apply list_elem_of_omap in Hin as (item & Hitem & Ha).
  destruct item as [| | | | | |i]; try done. simpl in Ha.
  apply as_number_raises in Ha as [Hov ->]. eauto.
Qed.

Lemma sum_amounts_ok items :
  (forall i, PDict i ∈ items -> ~ overflows (dict_get "amount" i)) ->
  exists t, sum_amounts F64.zero items = Ok t.
Proof.
  intros Hno. destruct (sum_amounts F64.zero items) as [t|e] eqn:Hs; [eauto|].
  apply sum_amounts_raises in Hs as (_ & i & Hi & Hov). by destruct (Hno i).
Qed.

Lemma pin_fill_cases pin :
  (exists p, pin = PDict p /\ is_container (dict_get "type_id" p)
             /\ pin_fill pin = Raise TypeError)
  \/ (exists capacity items, eligible pin capacity items)
  \/ (pin_fill pin = Ok None
      /\ forall capacity items, ~ eligible pin capacity items).
Proof.
  destruct pin as [| | | | | |p];
    try (right; right; split; [done | by intros c items [? _]]).
  destruct (int_key (dict_get "type_id" p)) as [k|e] eqn:Hk.
  - right.
    destruct (capacity_of (PDict p)) as [c|] eqn:Hc.
    + destruct (contents_of (PDict p)) as [items|] eqn:Hi.
      * left. by exists c, items.
      * right. split; [|intros c' items [_ ?]; congruence].
        simpl in *. rewrite Hk in Hc |- *. rewrite bind_Ok.
        destruct k as [k|]; [|done].
        change (Some k ≫= (PI_STORAGE_CAPACITY_UNITS !!.))
          with (PI_STORAGE_CAPACITY_UNITS !! k).
        rewrite Hc. destruct (c =? 0); [done|].
        destruct (truthy (dict_get "contents" p)); [|done].
        by destruct (dict_get "contents" p).
    + right. split; [|intros c' items [? _]; congruence].
      simpl in *. rewrite Hk in Hc |- *. rewrite bind_Ok.
      destruct k as [k|]; [|done].
      change (Some k ≫= (PI_STORAGE_CAPACITY_UNITS !!.))
        with (PI_STORAGE_CAPACITY_UNITS !! k).
      by rewrite Hc.
  - left. exists p. apply int_key_raises in Hk as Hc. destruct Hc as [Hc ->].
    split; [done|]. split; [done|]. simpl. by rewrite Hk.
Qed.

(** The loop body of [estimate_storage_fill_pct] raises in two cases only:
    [TypeError] when the pin's [type_id] is a list or a mapping, and
    [OverflowError] when the pin enters the estimate and one of its content
    entries has an [int] quantity beyond the float range. *)
Theorem pin_fill_raises pin e :
  pin_fill pin = Raise e
  <-> (exists p, pin = PDict p /\ is_container (dict_get "type_id" p)
                 /\ e = TypeError)
      \/ (exists capacity items i,
            eligible pin capacity items
            /\ PDict i ∈ items /\ overflows (dict_get "amount" i)
            /\ e = OverflowError).
Proof.
  destruct (pin_fill_cases pin)
    as [(p & -> & Hc & Hr) | [(c & items & Hel) | [Hnone Hno]]].
  - rewrite Hr. split.
    + intros [= <-]. left. by exists p.
    + intros [(p' & _ & _ & ->) | (c & items & i & [Hcap _] & _)]; [done|].
      simpl in Hcap. destruct (int_key_raises (dict_get "type_id" p) TypeError)
        as [_ Hk]. by rewrite Hk in Hcap.
  - rewrite (pin_fill_eligible _ _ _ Hel). split.
    + destruct (sum_amounts F64.zero items) as [t|e'] eqn:Hs; [done|].
      rewrite bind_Raise. intros [= ->].
      apply sum_amounts_raises in Hs as (-> & i & Hi & Hov).
      right. by exists c, items, i.
    + intros [(p & -> & Hc & ->) | (c' & items' & i & Hel' & Hi & Hov & ->)].
      * destruct Hel as [Hcap _]. simpl in Hcap.
        destruct (int_key_raises (dict_get "type_id" p) TypeError)
          as [_ Hk]. by rewrite Hk in Hcap.
      * destruct Hel as [_ Hc1], Hel' as [_ Hc2].
        rewrite Hc1 in Hc2. injection Hc2 as <-.
        destruct (sum_amounts F64.zero items) as [t|e'] eqn:Hs.
        -- exfalso. rewrite sum_amounts_add_all in Hs.
           destruct (add_all_outcome (omap entry_amount items) F64.zero)
             as [(t' & _ & Hnone) | (e' & He' & _)]; [|congruence].
           apply (Hnone OverflowError), list_elem_of_omap.
           exists (PDict i). split; [done|]. simpl. by apply as_number_raises.
        -- apply sum_amounts_raises in Hs as (-> & _). done.
  - rewrite Hnone. split; [done|].
    intros [(p & -> & Hc & ->) | (c & items & i & Hel & _)];
      [|by destruct (Hno c items)].
    simpl in Hnone.
    destruct (int_key_raises (dict_get "type_id" p) TypeError) as [_ Hk].
    by rewrite Hk in Hnone.
Qed.

(** The body of the extractor loop raises only for a pin that is a mapping
    with an extraction descriptor: with the exception of
    [parse_utc_timestamp] on its [expiry_time], or else with [TypeError]
    when the descriptor's [product_type_id] is a list or a mapping. *)
Theorem extractor_of_pin_raises now pin e :
  extractor_of_pin now pin = Raise e
  <-> exists p x,
        pin = PDict p
        /\ dict_get "extractor_details" p = PDict x
        /\ (parse_utc_timestamp (dict_get "expiry_time" p) = Raise e
            \/ ((exists dt, parse_utc_timestamp (dict_get "expiry_time" p)
                            = Ok dt)
                /\ is_container (dict_get "product_type_id" x)
                /\ e = TypeError)).
Proof.
  unfold extractor_of_pin. split.
  - destruct pin as [| | | | | |p]; try done.
    destruct (dict_get "extractor_details" p) as [| | | | | |x] eqn:Hx;
      try done.
    intros Hr. exists p, x. split; [done|]. split; [done|].
    destruct (parse_utc_timestamp _) as [dt|e'];
      rewrite ?bind_Ok, ?bind_Raise in Hr.
    + right. split; [eauto|].
      destruct (resolve_pi_product_name _) as [name|e'] eqn:Hn; [done|].
      rewrite bind_Raise in Hr. injection Hr as ->.
      by apply resolve_pi_product_name_outcomes in Hn.
    + left. congruence.
  - intros (p & x & -> & -> & [-> | ((dt & ->) & Hc & ->)]); [done|].
    rewrite bind_Ok.
    destruct (resolve_pi_product_name_outcomes (dict_get "product_type_id" x))
      as (Hraise & _).
    destruct (Hraise TypeError) as [_ ->]; done.
Qed.

End PinExceptionFacts.

Section StorageEntries.

Context `{PyRuntime}.




End StorageEntries.

Section LoopFacts.

Context `{PyRuntime}.

Lemma extractor_loop_ok_iff now pins :
  (exists r, extractor_loop now pins = Ok r)
  <-> Forall (fun pin => raises (extractor_of_pin now pin) = false) pins.
Proof.
  induction pins as [|pin pins IH]; simpl.
  { split; [constructor | eauto]. }
  rewrite Forall_cons, <- IH.
  destruct (extractor_of_pin now pin) as [e|]; rewrite ?bind_Ok, ?bind_Raise.
  - destruct (extractor_loop now pins) as [[es rs]|];
      rewrite ?bind_Ok, ?bind_Raise.
    + split; [eauto | intros _; eauto].
    + split; [by intros [? ?] | by intros [_ [? ?]]].
  - split; [by intros [? ?] | by intros [? _]].
Qed.

Lemma storage_loop_ok_iff pins : forall max_fill,
  (exists r, storage_loop max_fill pins = Ok r)
  <-> Forall (fun pin => raises (pin_fill pin) = false) pins.
Proof.
  induction pins as [|pin pins IH]; intros max_fill; simpl.
  { split; [constructor | eauto]. }
  rewrite Forall_cons.
  destruct (pin_fill pin) as [f|]; rewrite ?bind_Ok, ?bind_Raise.
  - rewrite IH. simpl. tauto.
  - split; [by intros [? ?] | by intros [? _]].
Qed.

Lemma render_types_ok types :
  exists text, render_types types = Ok text
               /\ (text = "unknown"%string <-> types = []).
Proof.
  destruct types as [|tid types]; [by exists "unknown"%string|].
  unfold render_types.
  assert (Hall : forall l : list pyint, exists names,
    mapM (fun tid => resolve_pi_product_name (of_pyint tid)) l = Ok names
    /\ length names = length l
    /\ Forall (fun name => exists c rest,
                 name = String c rest /\ c <> "u"%char) names).
  { induction l as [|x l (names & Hn & Hlen & Hall)].
    - by exists [].
    - destruct (resolve_pyint x) as (name & c & rest & Hx & -> & Hc).
      exists (String c rest :: names). simpl.
      change ((resolve_pi_product_name (of_pyint x)
               ≫= fun y => mapM (fun tid =>
                    resolve_pi_product_name (of_pyint tid)) l
                  ≫= fun k => mret (y :: k))
              = Ok (String c rest :: names)
              /\ S (length names) = S (length l)
              /\ Forall (fun name => exists c rest,
                   name = String c rest /\ c <> "u"%char)
                   (String c rest :: names)).
      rewrite Hx, bind_Ok, Hn, bind_Ok. split; [done|]. split; [by f_equal|].
      constructor; eauto. }
  destruct (Hall (tid :: types)) as (names & -> & Hlen & Hnames).
  rewrite bind_Ok. eexists. split; [done|].
  split; [|done]. destruct names as [|name names]; [done|].
  apply Forall_cons in Hnames as [(c & rest & -> & Hc) _].
  unfold py_join. simpl. destruct names; simpl; by intros [= -> _].
Qed.

Lemma factory_of_pin_ok incoming outgoing pin :
  exists o, factory_of_pin incoming outgoing pin = Ok o
            /\ (is_Some o <-> is_factory pin).
Proof.
  unfold factory_of_pin, is_factory.
  destruct pin as [| | | | | |p];
    try (exists None; split; [done|];
         split; [by intros [? ?] | by intros (? & ? & ? & _)]).
  destruct (dict_has "factory_details" p || dict_has "schematic_id" p)
    eqn:Hmark.
  - apply orb_true_iff in Hmark as Hm.
    assert (negb (dict_has "factory_details" p)
            && negb (dict_has "schematic_id" p) = false) as ->.
    { destruct Hm as [-> | ->]; [done | by rewrite andb_false_r]. }
    destruct (as_int (dict_get "pin_id" p)) as [i|] eqn:Hi.
    + destruct (render_types_ok
                  (py_sorted (py_set (default [] (incoming !! int_val i)))))
        as (ti & -> & _).
      destruct (render_types_ok
                  (py_sorted (py_set (default [] (outgoing !! int_val i)))))
        as (to & -> & _).
      rewrite !bind_Ok. eexists. split; [done|].
      split; [intros _; by exists p, i | eauto].
    + exists None. split; [done|].
      split; [by intros [? ?]|]. intros (p' & i & [= <-] & _ & Hi').
      congruence.
  - apply orb_false_iff in Hmark as [H1 H2]. rewrite H1, H2.
    exists None. split; [done|].
    split; [by intros [? ?]|]. intros (p' & i & [= <-] & Hm & _).
    by rewrite H1, H2 in Hm.
Qed.

Lemma factory_loop_ok incoming outgoing pins :
  exists fs, factory_loop incoming outgoing pins = Ok fs.
Proof.
  induction pins as [|pin pins [fs IH]]; simpl; [eauto|].
  destruct (factory_of_pin_ok incoming outgoing pin) as (o & -> & _).
  rewrite bind_Ok, IH, bind_Ok. eauto.
Qed.

(** [parse_pi_status] computes the record of one planet without raising
    exactly when the [pins] and [routes] of its detail can be iterated and
    neither the extractor step nor the storage step raises on a pin:
    routes and factories never make it raise. *)
Theorem colony_status_ok_iff now details_map planet :
  (exists r, colony_status now details_map planet = Ok r)
  <-> exists pin_list route_list,
        py_iter (dict_get_default "pins" (PList [])
                   (detail_of details_map planet)) = Ok pin_list
        /\ py_iter (dict_get_default "routes" (PList [])
                      (detail_of details_map planet)) = Ok route_list
        /\ Forall (fun pin => raises (extractor_of_pin now pin) = false
                              /\ raises (pin_fill pin) = false) pin_list.
Proof.
  split.
  - intros [r Hr]. apply colony_status_inv in Hr
      as (pin_list & es & rs & route_list & fs & fill
          & Hp & He & Hro & _ & Hs & _).
    exists pin_list, route_list. split; [done|]. split; [done|].
    unfold estimate_storage_fill_pct in Hs. rewrite Hp, bind_Ok in Hs.
    apply Forall_and. split.
    + apply extractor_loop_ok_iff. eauto.
    + apply (storage_loop_ok_iff pin_list None). eauto.
  - intros (pin_list & route_list & Hp & Hro & Hall).
    apply Forall_and in Hall as [Hext Hfill].
    apply extractor_loop_ok_iff in Hext as [[es rs] He].
    apply (storage_loop_ok_iff pin_list None) in Hfill as [fill Hs].
    unfold colony_status. fold (detail_of details_map planet).
    unfold estimate_storage_fill_pct.
    rewrite Hp, bind_Ok, He, bind_Ok, Hro, bind_Ok.
    destruct (aggregate_routes route_list) as [inc out].
    destruct (factory_loop_ok inc out pin_list) as [fs ->].
    rewrite bind_Ok, bind_Ok, Hs, bind_Ok. eauto.
Qed.

End LoopFacts.

Section ReportFacts.

Context `{PyRuntime}.

Lemma dict_fromkeys_nil_iff l : dict_fromkeys l = [] <-> l = [].
Proof.
  split; [|by intros ->]. intros Hnil.
  destruct l as [|x l]; [done|].
  assert (Hx : x ∈ dict_fromkeys (x :: l)) by (apply elem_of_dict_fromkeys; left).
  rewrite Hnil in Hx. by apply elem_of_nil in Hx.
Qed.

Lemma extractor_attention_flagged e :
  extractor_attention e <> [] <-> flagged e.
Proof.
  unfold extractor_attention, flagged.
  destruct (status e) eqn:Hst.
  - destruct (hours_remaining e) as [h|]; [destruct (F64.leb h F64.c6) eqn:Hle|].
    + split; [eauto | done].
    + split; [done|]. intros [? | (h' & [= <-] & ?)]; congruence.
    + split; [done|]. by intros [? | (h' & ? & _)].
  - split; [auto | done].
  - destruct (hours_remaining e) as [h|]; [destruct (F64.leb h F64.c6) eqn:Hle|].
    + split; [eauto | done].
    + split; [done|]. intros [? | (h' & [= <-] & ?)]; congruence.
    + split; [done|]. by intros [? | (h' & ? & _)].
Qed.

Lemma concat_nil_iff {A : Type} (ls : list (list A)) :
  concat ls = [] <-> Forall (fun l => l = []) ls.
Proof.
  induction ls as [|l ls IH]; simpl; [split; [constructor | done]|].
  rewrite Forall_cons, <- IH. split.
  - by intros [-> ->]%app_eq_nil.
  - by intros [-> ->].
Qed.

Lemma elem_of_concat {A : Type} (x : A) (ls : list (list A)) :
  x ∈ concat ls <-> exists l, x ∈ l /\ l ∈ ls.
Proof.
  induction ls as [|l ls IH]; simpl.
  { split; [by intros ?%elem_of_nil | by intros (? & _ & ?%elem_of_nil)]. }
  rewrite elem_of_app, IH. split.
  - intros [Hx | (l' & Hx & Hl')]; [exists l; split; [done | left]|].
    exists l'. split; [done | by right].
  - intros (l' & Hx & [-> | Hl']%elem_of_cons); [by left | right; eauto].
Qed.

Lemma reason_initial x es fill :
  x ∈ concat (map extractor_attention es) ++ storage_attention fill ->
  exists c rest, x = String c rest /\ c <> "n"%char.
Proof.
  rewrite elem_of_app. intros [Hx | Hx].
  - apply elem_of_concat in Hx as (l & Hxl & Hl).
    apply list_elem_of_fmap in Hl as (e & -> & _).
    unfold extractor_attention in Hxl.
    destruct (status e);
      try (apply list_elem_of_singleton in Hxl as ->;
           by eexists "E"%char, _);
      destruct (hours_remaining e) as [h|]; try (by apply elem_of_nil in Hxl);
      destruct (F64.leb h F64.c6); try (by apply elem_of_nil in Hxl);
      apply list_elem_of_singleton in Hxl as ->; by eexists "E"%char, _.
  - unfold storage_attention in Hx.
    destruct fill as [f|]; [|by apply elem_of_nil in Hx].
    destruct (F64.leb F64.c80 f); [|by apply elem_of_nil in Hx].
    apply list_elem_of_singleton in Hx as ->. by eexists "S"%char, _.
Qed.

Lemma join_initial sep c rest l :
  exists rest', String.concat sep (String c rest :: l) = String c rest'.
Proof. destruct l; simpl; eauto. Qed.

(** A colony needs attention exactly when one of its extractor entries is
    expired or has at most 6.0 hours left, or its storage fill is at least
    80.0; and the reason string is the sentinel [none] exactly when it does
    not need attention. *)
Theorem needs_attention_iff now details_map planet r :
  colony_status now details_map planet = Ok r ->
  (needs_attention r = true
   <-> (exists e, e ∈ extractors r /\ flagged e)
       \/ (exists f, storage_fill_pct r = Some f
                     /\ F64.leb F64.c80 f = true))
  /\ (needs_attention r = false <-> action_required r = "none"%string).
Proof.
  intros Hr.
  apply colony_status_inv in Hr
    as (pin_list & es & rs & route_list & fs & fill
        & _ & Hes & _ & _ & _ & ->).
  apply extractor_loop_reasons in Hes as ->. simpl.
  set (reasons := concat (map extractor_attention es) ++ storage_attention fill).
  assert (Hne : dict_fromkeys reasons <> []
    <-> (exists e, e ∈ es /\ flagged e)
        \/ (exists f, fill = Some f /\ F64.leb F64.c80 f = true)).
  { rewrite dict_fromkeys_nil_iff. unfold reasons. split.
    - intros Hn.
      destruct (concat (map extractor_attention es)) as [|x l] eqn:Hc.
      + right. simpl in Hn. unfold storage_attention in Hn.
        destruct fill as [f|]; [|done].
        destruct (F64.leb F64.c80 f) eqn:Hle; [eauto | done].
      + left.
        assert (Hx : x ∈ concat (map extractor_attention es))
          by (rewrite Hc; left).
        apply elem_of_concat in Hx as (l' & Hxl & Hl).
        apply list_elem_of_fmap in Hl as (e & -> & He).
        exists e. split; [done|]. apply extractor_attention_flagged.
        intros Hnil. rewrite Hnil in Hxl. by apply elem_of_nil in Hxl.
    - intros [(e & He & Hf) | (f & -> & Hle)] Hnil;
        apply app_eq_nil in Hnil as [Hc Hs].
      + apply concat_nil_iff in Hc. rewrite Forall_forall in Hc.
        apply extractor_attention_flagged in Hf. apply Hf, Hc.
        apply list_elem_of_fmap. eauto.
      + unfold storage_attention in Hs. by rewrite Hle in Hs. }
  split.
  - rewrite <- Hne. by destruct (dict_fromkeys reasons).
  - destruct (dict_fromkeys reasons) as [|x l] eqn:Hu; [done|].
    split; [done|].
    assert (Hx : x ∈ reasons).
    { apply elem_of_dict_fromkeys. rewrite Hu. left. }
    apply reason_initial in Hx as (c & rest & -> & Hc).
    unfold py_join. destruct (join_initial "; " c rest l) as [rest' ->].
    intros [= -> _]. done.
Qed.

(** [parse_pi_status] returns one record per entry of the planets list
    that is a mapping, in the order of the list, each carrying the entry's
    [planet_id], [planet_type] and [solar_system_id] as received; planets
    given as a mapping or a string yield an empty report, and planets that
    are [None] or a number raise [TypeError]. *)
Theorem records_follow_planets now planet_details :
  (forall planets rs,
      parse_pi_status now (PList planets) planet_details = Ok rs ->
      map (fun r => (planet_id r, planet_type r, solar_system_id r)) rs
      = omap (fun v =>
                (fun p => (dict_get "planet_id" p, dict_get "planet_type" p,
                           dict_get "solar_system_id" p)) <$> as_dict v)
          planets)
  /\ (forall d, parse_pi_status now (PDict d) planet_details = Ok [])
  /\ (forall s, parse_pi_status now (PStr s) planet_details = Ok [])
  /\ (forall v,
        match v with
        | PList _ | PDict _ | PStr _ => True
        | _ => parse_pi_status now v planet_details = Raise TypeError
        end).
Proof.
  assert (Hskip : forall dm (l : list (string * pyval)),
            status_loop now dm (map (fun kv => PStr (fst kv)) l) = Ok []).
  { intros dm l. by induction l. }
  split; [|split; [|split]].
  - intros planets. unfold parse_pi_status. cbn [py_iter]. rewrite bind_Ok.
    generalize (build_details_map planet_details). intros dm.
    induction planets as [|v planets IH]; intros rs; simpl.
    { by intros [= <-]. }
    destruct v as [| | | | | |p]; simpl; try apply IH.
    destruct (colony_status now dm p) as [r|] eqn:Hr; [|done].
    rewrite bind_Ok.
    destruct (status_loop now dm planets) as [rs'|]; [|done].
    rewrite bind_Ok. intros [= <-]. simpl. rewrite (IH rs' eq_refl).
    apply colony_status_inv in Hr as (? & ? & ? & ? & ? & ? & _ & _ & _ & _ & _ & ->).
    done.
  - intros d. unfold parse_pi_status. cbn [py_iter]. rewrite bind_Ok.
    apply Hskip.
  - intros s. unfold parse_pi_status. cbn [py_iter]. rewrite bind_Ok.
    generalize (build_details_map planet_details). intros dm.
    by induction s.
  - by intros [].
Qed.

End ReportFacts.

Section MoreStorageFacts.

Context `{PyRuntime}.

Lemma estimate_list pins :
  estimate_storage_fill_pct (PList pins) = storage_loop None pins.
Proof. reflexivity. Qed.

(** The storage estimate does not depend on the order of the pins: after
    any permutation it is again defined, null in the same cases, and equal
    as a number. *)
Theorem storage_fill_order_independent pins pins' r :
  pins ≡ₚ pins' ->
  estimate_storage_fill_pct (PList pins) = Ok r ->
  exists r',
    estimate_storage_fill_pct (PList pins') = Ok r'
    /\ (r = None <-> r' = None)
    /\ (forall f f', r = Some f -> r' = Some f' ->
          F64.leb f f' = true /\ F64.leb f' f = true).
Proof.
  rewrite !estimate_list. intros Hperm Hr.
  assert (Hok : exists r', storage_loop None pins' = Ok r').
  { apply storage_loop_ok_iff. rewrite <- Hperm.
    apply (storage_loop_ok_iff pins None). eauto. }
  destruct Hok as [r' Hr']. exists r'. split; [done|].
  apply storage_loop_spec in Hr as (_ & Hnone & Hsome); [|done].
  apply storage_loop_spec in Hr' as (_ & Hnone' & Hsome'); [|done].
  split.
  - rewrite Hnone, Hnone'.
    split; intros [_ Hall]; (split; [done|]); intros pin Hin; apply Hall.
    + by rewrite Hperm.
    + by rewrite <- Hperm.
  - intros f f' -> ->.
    destruct (Hsome f eq_refl) as ([? | (p & Hp & Hpf)] & _ & Hmax); [done|].
    destruct (Hsome' f' eq_refl) as ([? | (p' & Hp' & Hpf')] & _ & Hmax');
      [done|].
    split.
    + apply (Hmax' p); [by rewrite <- Hperm | done].
    + apply (Hmax p'); [by rewrite Hperm | done].
Qed.

End MoreStorageFacts.

Section FactoryFacts.

Context `{PyRuntime}.

Lemma shown_nil_iff types k : shown types k = [] <-> default [] (types !! k) = [].
Proof.
  unfold shown. split.
  - intros Hnil. destruct (default [] (types !! k)) as [|x l]; [done|].
    assert (Hx : x ∈ py_sorted (py_set (x :: l)))
      by (rewrite py_sorted_perm; left).
    rewrite Hnil in Hx. by apply elem_of_nil in Hx.
  - by intros ->.
Qed.

(** Factory resolution never raises.  A pin is listed as a factory exactly
    when it is a mapping that has [factory_details] or [schematic_id] and
    whose [pin_id] is an [int]; its input reads [unknown] exactly when no
    route with [int] identifiers arrives at it, its output exactly when
    none leaves it, and its schematic exactly when [schematic_id] is
    absent or null. *)
Theorem factory_sides routes pin :
  exists o,
    factory_of_pin (aggregate_routes routes).1 (aggregate_routes routes).2 pin
    = Ok o
    /\ (is_Some o <-> is_factory pin)
    /\ (forall f p i,
          o = Some f -> pin = PDict p ->
          as_int (dict_get "pin_id" p) = Some i ->
          (input f = "unknown"%string
           <-> omap (routed "destination_pin_id" (int_val i)) routes = [])
          /\ (output f = "unknown"%string
              <-> omap (routed "source_pin_id" (int_val i)) routes = [])
          /\ (schematic f = "unknown"%string
              <-> dict_get "schematic_id" p = PNone)).
Proof.
  destruct (factory_of_pin_ok (aggregate_routes routes).1
              (aggregate_routes routes).2 pin) as (o & Ho & Hlisted).
  exists o. split; [done|]. split; [done|].
  intros f p i -> -> Hi. unfold factory_of_pin in Ho.
  destruct (negb (dict_has "factory_details" p)
            && negb (dict_has "schematic_id" p)); [done|].
  rewrite Hi in Ho.
  fold (shown (aggregate_routes routes).1 (int_val i)) in Ho.
  fold (shown (aggregate_routes routes).2 (int_val i)) in Ho.
  destruct (render_types_ok (shown (aggregate_routes routes).1 (int_val i)))
    as (ti & Hti & Hui).
  destruct (render_types_ok (shown (aggregate_routes routes).2 (int_val i)))
    as (to & Hto & Huo).
  rewrite Hti, bind_Ok, Hto, bind_Ok in Ho. injection Ho as <-. simpl.
  destruct (aggregate_routes_lookup routes (int_val i)) as [Hout Hin].
  split; [|split].
  - by rewrite Hui, shown_nil_iff, Hin.
  - by rewrite Huo, shown_nil_iff, Hout.
  - destruct (dict_get "schematic_id" p); split; done.
Qed.

End FactoryFacts.

Section DetailsFacts.

Context `{PyRuntime}.

Lemma details_step_lookup m item k :
  details_step m item !! k
  = match detail_for k item with
    | Some d => Some d
    | None => m !! k
    end.
Proof.
  unfold details_step, detail_for.
  destruct item as [| | | | | |i]; try done.
  destruct (dict_get "planet_id" i) eqn:Hid; try done;
    (rewrite lookup_insert; destruct (decide _); done).
Qed.

Lemma fold_details_step_lookup items : forall m k,
  fold_left details_step items m !! k
  = match last (omap (detail_for k) items) with
    | Some d => Some d
    | None => m !! k
    end.
Proof.
  induction items as [|item items IH]; intros m k; simpl; [done|].
  rewrite IH, details_step_lookup.
  destruct (detail_for k item) as [d|]; [|done].
  rewrite last_cons. set (found := omap (detail_for k) items).
  change (list_omap pyval pydict (detail_for k) items) with found.
  by destruct (last found).
Qed.

(** The details argument of [parse_pi_status] in its two forms.  Given as
    a list, the detail used for a key is that of the last item whose
    [planet_id] is not null and prints as the key, the item's [detail]
    when that is a mapping and the item itself otherwise; items that are
    not mappings are ignored.  Given as a mapping, the entries whose value
    is a mapping are kept and the others dropped.  Any other value stands
    for no details at all. *)
Theorem details_map_lookup k :
  (forall items,
      build_details_map (PList items) !! k
      = last (omap (detail_for k) items))
  /\ (forall d, build_details_map (PDict d) !! k = d !! k ≫= as_dict)
  /\ (forall v,
        match v with
        | PList _ | PDict _ => True
        | _ => build_details_map v !! k = None
        end).
Proof.
  split; [|split].
  - intros items. unfold build_details_map.
    rewrite fold_details_step_lookup, lookup_empty.
    by destruct (last _).
  - intros d. unfold build_details_map. apply lookup_omap.
  - by intros [].
Qed.

End DetailsFacts.

Section FillRangeFacts.

Context `{PyRuntime}.

Lemma round_shape s m e :
  let r := binary_round F64.prec F64.emax s m e in
  r = S754_zero s \/ r = S754_infinity s \/ r = S754_nan
  \/ exists m' e', r = S754_finite s m' e'.
Proof.
  unfold binary_round. destruct (shl_align _ _ _) as [mz ez].
  apply F64Facts.round_aux_shape.
Qed.

Lemma round_nonnegative m e :
  nonnegative (binary_round F64.prec F64.emax false m e).
Proof.
  destruct (round_shape false m e) as [-> | [-> | [-> | (m' & e' & ->)]]]; done.
Qed.

Lemma of_Z_nonnegative z : 0 <= z -> nonnegative (F64.of_Z z).
Proof.
  destruct z; try lia; intros _; [done|]. apply round_nonnegative.
Qed.

Lemma add_nonnegative x y :
  nonnegative x -> nonnegative y -> nonnegative (F64.add x y).
Proof.
  unfold F64.add, SFadd.
  destruct x as [sx|sx| |sx mx ex], y as [sy|sy| |sy my ey]; simpl;
    try done; try (intros; subst; done); try (by destruct sx, sy).
  intros -> ->. simpl. apply round_nonnegative.
Qed.

Lemma mul_positive_nonnegative x m e :
  nonnegative x -> nonnegative (F64.mul x (S754_finite false m e)).
Proof.
  destruct x as [s|s| |s mx ex]; simpl; try done.
  - intros ->. done.
  - intros ->. unfold F64.mul, SFmul.
    destruct (F64Facts.round_aux_shape (xorb false false)
                (Z.pos (mx * m)) (ex + e) loc_Exact)
      as [-> | [-> | [-> | (m' & e' & ->)]]]; done.
Qed.

Lemma py_min_nonnegative a x :
  nonnegative a -> nonnegative x -> nonnegative (F64.py_min a x).
Proof. unfold F64.py_min. by destruct (F64.ltb x a). Qed.

Lemma capacity_float k c :
  PI_STORAGE_CAPACITY_UNITS !! k = Some c ->
  exists m e, F64.of_Z c = S754_finite false m e.
Proof.
  intros Hk. apply elem_of_list_to_map_2 in Hk.
  repeat (apply elem_of_cons in Hk as [[= _ ->] | Hk];
          [eexists _, _; vm_compute; reflexivity|]).
  by apply elem_of_nil in Hk.
Qed.

Lemma as_number_nonnegative v a :
  not_negative_amount v -> as_number v = Some (Ok a) -> nonnegative a.
Proof.
  destruct v as [|b|z|f|s|l|d]; try done; unfold as_number.
  - intros _ [= <-]. by destruct b.
  - intros Hz. pose proof (of_Z_nonnegative z Hz) as Hn.
    destruct (F64.of_Z z); by intros [= <-].
  - by intros Hf [= <-].
Qed.

Lemma sum_amounts_nonnegative items : forall total t,
  nonnegative total ->
  (forall i, PDict i ∈ items -> not_negative_amount (dict_get "amount" i)) ->
  sum_amounts total items = Ok t -> nonnegative t.
Proof.
  induction items as [|item items IH]; intros total t Htot Hall; simpl.
  { by intros [= <-]. }
  assert (Hrest : forall i, PDict i ∈ items ->
                            not_negative_amount (dict_get "amount" i)).
  { intros i Hi. apply Hall. by right. }
  destruct item as [| | | | | |i]; try (by apply IH).
  destruct (as_number (dict_get "amount" i)) as [[a|]|] eqn:Ha;
    rewrite ?bind_Ok, ?bind_Raise; [|done|by apply IH].
  apply IH; [|done]. apply add_nonnegative; [done|].
  eapply as_number_nonnegative; [|done]. apply Hall. left.
Qed.

Lemma fill_ratio_nonnegative total k c :
  PI_STORAGE_CAPACITY_UNITS !! k = Some c ->
  nonnegative total -> nonnegative (fill_ratio total c).
Proof.
  intros Hk Htot. destruct (capacity_float k c Hk) as (m & e & Hc).
  unfold fill_ratio. rewrite Hc.
  apply py_min_nonnegative; [done|].
  apply F64Facts.round2_nonnegative.
  apply (mul_positive_nonnegative _ 7036874417766400 (-46)).
  by apply F64Facts.div_positive_nonnegative.
Qed.

(** When no content entry of a colony's storage pins has a negative
    quantity, the storage fill percentage lies between 0.0 and 100.0. *)
Theorem storage_fill_between_0_and_100 pins f :
  (forall pin capacity items i,
      pin ∈ pins -> eligible pin capacity items -> PDict i ∈ items ->
      not_negative_amount (dict_get "amount" i)) ->
  estimate_storage_fill_pct (PList pins) = Ok (Some f) ->
  F64.ltb f F64.zero = false /\ F64.leb f F64.c100 = true.
Proof.
  intros Hall Hr. rewrite estimate_list in Hr.
  apply storage_loop_spec in Hr as (_ & _ & Hsome); [|done].
  destruct (Hsome f eq_refl) as ([? | (pin & Hin & Hpin)] & _ & _); [done|].
  split; [|by eapply pin_fill_le_100].
  apply F64Facts.nonnegative_not_lt_zero.
  apply pin_fill_Some in Hpin as (c & items & total & Hel & Hsum & ->).
  assert (Hcap : exists k, PI_STORAGE_CAPACITY_UNITS !! k = Some c).
  { destruct Hel as [Hcap _]. destruct pin as [| | | | | |p]; try done.
    simpl in Hcap. destruct (int_key (dict_get "type_id" p)) as [[k|]|];
      try done. eauto. }
  destruct Hcap as [k Hk]. apply (fill_ratio_nonnegative _ k); [done|].
  eapply (sum_amounts_nonnegative items F64.zero); [done | | done].
  intros i Hi. by apply (Hall pin c items i).
Qed.

End FillRangeFacts.

(** ** URL helpers *)

Section UrlFacts.

Variable urlencode : ordered_dict -> string.

(** [normalize_endpoint] returns a string that starts with a slash, leaves
    unchanged exactly the endpoints that already do, and changes nothing
    when applied twice. *)
Theorem normalize_endpoint_idempotent endpoint :
  starts_with_slash (normalize_endpoint endpoint) = true
  /\ (normalize_endpoint endpoint = endpoint
      <-> starts_with_slash endpoint = true)
  /\ normalize_endpoint (normalize_endpoint endpoint)
     = normalize_endpoint endpoint.
Proof.
  unfold normalize_endpoint.
  destruct (starts_with_slash endpoint) eqn:Hs.
  - rewrite Hs. done.
  - split; [done|]. split; [|done]. split; [|done].
    intros Heq. rewrite <- Heq in Hs. done.
Qed.

Lemma contains_char_app c a b :
  contains_char c (a +:+ b) = contains_char c a || contains_char c b.
Proof.
  induction a as [|x a IH]; simpl; [done|]. by rewrite IH, orb_assoc.
Qed.

Lemma url_has_query_mark endpoint :
  contains_char "?" (BASE_URL +:+ normalize_endpoint endpoint)
  = contains_char "?" endpoint.
Proof.
  rewrite contains_char_app. unfold normalize_endpoint.
  by destruct (starts_with_slash endpoint).
Qed.

Lemma ordered_get_dict_set k v d j :
  ordered_get j (dict_set k v d)
  = if decide (k = j) then Some v else ordered_get j d.
Proof.
  induction d as [|[k' v'] d IH]; simpl.
  { by destruct (decide (k = j)). }
  destruct (decide (k' = k)) as [->|Hne]; simpl.
  - by destruct (decide (k = j)).
  - rewrite IH. destruct (decide (k' = j)) as [->|]; [|done].
    by rewrite decide_False by done.
Qed.

Lemma dict_set_not_nil k v d : dict_set k v d <> [].
Proof. destruct d as [|[k' v'] d]; simpl; [done|]. by destruct (decide _). Qed.

Lemma dict_update_not_nil other : forall d,
  d <> [] \/ other <> [] -> dict_update d other <> [].
Proof.
  unfold dict_update.
  induction other as [|[k v] other IH]; intros d Hd; simpl.
  { by destruct Hd. }
  apply IH. left. apply dict_set_not_nil.
Qed.

(** [build_url] always starts with the base URL followed by a slash.
    Without page and without parameters it is the base URL and the
    normalized endpoint; otherwise the encoded query follows, after [&]
    when the endpoint already has a question mark and after [?] when not.
    A page number always ends up under the key [page] of the query,
    whatever the parameters say, and with a page number there is always a
    query. *)
Theorem build_url_shape endpoint page params :
  (exists rest,
      build_url urlencode endpoint page params
      = (BASE_URL +:+ String "/" rest)%string)
  /\ (build_query page params = [] ->
      build_url urlencode endpoint page params
      = (BASE_URL +:+ normalize_endpoint endpoint)%string)
  /\ (build_query page params <> [] ->
      build_url urlencode endpoint page params
      = ((BASE_URL +:+ normalize_endpoint endpoint)
         +:+ (if contains_char "?" endpoint then "&" else "?")
         +:+ urlencode (build_query page params))%string)
  /\ (build_query page params = []
      <-> page = None /\ (params = None \/ params = Some []))
  /\ (forall p, page = Some p ->
        ordered_get "page" (build_query page params) = Some (PInt p))
  /\ (forall k, k <> "page"%string ->
        ordered_get k (build_query page params)
        = ordered_get k (build_query None params)).
Proof.
  assert (Hnorm : exists rest, normalize_endpoint endpoint = String "/" rest).
  { unfold normalize_endpoint. destruct endpoint as [|c e]; simpl; [eauto|].
    destruct (Ascii.eqb_spec c "/") as [->|]; eauto. }
  assert (Hempty : build_query page params = []
                   <-> page = None /\ (params = None \/ params = Some [])).
  { unfold build_query. destruct page as [p|].
    - split; [|by intros [? _]]. intros Hq. by apply dict_set_not_nil in Hq.
    - destruct params as [[|kv rest]|].
      + split; [auto | done].
      + split.
        * intros Hq. apply dict_update_not_nil in Hq; [done | by right].
        * by intros [_ [? | ?]].
      + split; [auto | done]. }
  assert (Hurl : build_query page params <> [] ->
    build_url urlencode endpoint page params
    = ((BASE_URL +:+ normalize_endpoint endpoint)
       +:+ (if contains_char "?" endpoint then "&" else "?")
       +:+ urlencode (build_query page params))%string).
  { intros Hq. unfold build_url.
    destruct (build_query page params) as [|kv q]; [done|].
    by rewrite url_has_query_mark. }
  split; [|split; [|split; [|split; [|split]]]].
  - destruct Hnorm as [rest Hrest].
    destruct (build_query page params) as [|kv q] eqn:Hq.
    + unfold build_url. rewrite Hq, Hrest. eauto.
    + rewrite Hurl by done. rewrite Hrest.
      eexists (rest +:+ _)%string. reflexivity.
  - intros Hq. unfold build_url. by rewrite Hq.
  - done.
  - done.
  - intros p ->. unfold build_query. rewrite ordered_get_dict_set.
    by rewrite decide_True.
  - intros k Hk. unfold build_query. destruct page as [p|]; [|done].
    rewrite ordered_get_dict_set. by rewrite decide_False.
Qed.

End UrlFacts.

(** ** The remote service *)

Section RemoteFacts.

Variable int_of_str : string -> result Z.

Lemma io_bind_value {A B : Type} (m : io A) (k : A -> io B) w b w'' :
  (m ≫= k) w = (Value b, w'')
  <-> exists a w', m w = (Value a, w') /\ k a w' = (Value b, w'').
Proof.
  unfold mbind, io_bind. destruct (m w) as [[a|f] w']; split.
  - eauto.
  - by intros (a' & w1 & [= <- <-] & Hk).
  - done.
  - by intros (a' & w1 & [= ] & _).
Qed.

Lemma lift_value {A : Type} (r : result A) w a w' :
  lift r w = (Value a, w') <-> r = Ok a /\ w' = w.
Proof.
  unfold lift. destruct r; split.
  - by intros [= <- <-].
  - by intros [[= <-] ->].
  - done.
  - by intros [? _].
Qed.

Lemma esi_request_value req w body headers w' :
  esi_request req w = (Value (body, headers), w')
  <-> exists rest,
        script w = Reply body headers :: rest
        /\ w' = {| script := rest; sent := sent w ++ [req] |}.
Proof.
  unfold esi_request. destruct (script w) as [|[b h|f] rest]; simpl; split.
  - done.
  - by intros (rest' & ? & _).
  - intros [= <- <- <-]. eauto.
  - by intros (rest' & [= <- <- <-] & ->).
  - done.
  - by intros (rest' & ? & _).
Qed.

Lemma fetch_pages_value endpoint token params pages :
  forall all_results w items w',
    fetch_pages endpoint token params pages all_results w = (Value items, w') ->
    exists later,
      length later = length pages
      /\ script w = map reply_of later ++ script w'
      /\ sent w' = sent w ++ map (page_request endpoint token params) pages
      /\ items = all_results ++ concat (omap (fun r => as_list (fst r)) later).
Proof.
  induction pages as [|p pages IH]; intros acc w items w'; simpl.
  { intros [= <- <-]. exists []. by rewrite !app_nil_r. }
  intros Hrun. apply io_bind_value in Hrun as ([body headers] & w1 & Hreq & Hrest).
  apply esi_request_value in Hreq as (rest & Hscript & ->).
  apply IH in Hrest as (later & Hlen & Hs & Hsent & ->). simpl in *.
  exists ((body, headers) :: later). split; [by rewrite <- Hlen|].
  split; [by rewrite Hscript, Hs|].
  split; [by rewrite Hsent, <- app_assoc|].
  destruct body; simpl; try done. by rewrite app_assoc.
Qed.

(** A successful [esi_request_all_pages] has asked for page 1 and, when
    that body is a list, for the pages 2 up to the count in the [x-pages]
    header of the first reply (1 when the header is absent), each once and
    in order, and for nothing else.  Its result is the items of the first
    page followed by those of the later pages that are lists, in page
    order; a later page that is not a list adds nothing.  A first body
    that is not a list ends the call after one request, with no items when
    it is [None] and with the body as the only item otherwise. *)
Theorem all_pages_protocol endpoint token params w items w' :
  esi_request_all_pages int_of_str endpoint token params w = (Value items, w') ->
  exists first headers total later,
    script w = Reply first headers :: map reply_of later ++ script w'
    /\ total_pages_of int_of_str headers = Ok total
    /\ match first with
       | PList first_items =>
           length later = length (seqZ 2 (total - 1))
           /\ sent w'
              = sent w ++ map (page_request endpoint token params)
                            (1 :: seqZ 2 (total - 1))
           /\ items
              = first_items ++ concat (omap (fun r => as_list (fst r)) later)
       | _ =>
           later = []
           /\ sent w' = sent w ++ [page_request endpoint token params 1]
           /\ items = match first with PNone => [] | _ => [first] end
       end.
Proof.
  unfold esi_request_all_pages. intros Hrun.
  apply io_bind_value in Hrun as ([first headers] & w1 & Hreq & Hrun).
  apply esi_request_value in Hreq as (rest & Hscript & ->).
  apply io_bind_value in Hrun as (total & w2 & Htotal & Hrun).
  apply lift_value in Htotal as [Htotal ->].
  exists first, headers, total.
  destruct first as [| | | | |first_items|];
    try (injection Hrun as <- <-; exists []; simpl;
         by rewrite Hscript).
  apply fetch_pages_value in Hrun as (later & Hlen & Hs & Hsent & ->).
  simpl in *. exists later. rewrite Hscript, Hs. split; [done|].
  split; [done|]. split; [done|]. split; [|done].
  by rewrite Hsent, <- app_assoc.
Qed.

End RemoteFacts.
(** ** The market snapshot *)

Section MarketFacts.

Lemma digits2_pos_size m : digits2_pos m = Pos.size m.
Proof. induction m; simpl; congruence. Qed.

Lemma mantissa_bounds m :
  2 ^ (Zpos (digits2_pos m) - 1) <= Zpos m < 2 ^ Zpos (digits2_pos m).
Proof.
  rewrite digits2_pos_size. split.
  - pose proof (Pos.size_le m) as Hle.
    assert (Hz : 2 ^ Zpos (Pos.size m) <= 2 * Zpos m).
    { rewrite <- (Pos2Z.inj_pow 2). lia. }
    replace (Zpos (Pos.size m)) with (Z.succ (Zpos (Pos.size m) - 1)) in Hz
      by lia.
    rewrite Z.pow_succ_r in Hz by lia. lia.
  - pose proof (Pos.size_gt m) as Hgt.
    rewrite <- (Pos2Z.inj_pow 2). lia.
Qed.

Lemma valid_finite s m e :
  valid_binary F64.prec F64.emax (S754_finite s m e) = true ->
  -1074 <= e /\ Zpos m < 2 ^ 53 /\ (-1074 < e -> 2 ^ 52 <= Zpos m).
Proof.
  unfold valid_binary, bounded, canonical_mantissa, fexp, emin, F64.prec,
    F64.emax.
  intros Hv. apply andb_prop in Hv as [Hc _].
  apply Z.eqb_eq in Hc.
  pose proof (mantissa_bounds m) as [Hlo Hhi].
  set (d := Zpos (digits2_pos m)) in *.
  assert (Hd : d <= 53) by lia.
  split; [lia|]. split.
  - eapply Z.lt_le_trans; [exact Hhi|]. apply Z.pow_le_mono_r; lia.
  - intros He. assert (d = 53) as Hd53 by lia. rewrite Hd53 in Hlo.
    exact Hlo.
Qed.

Lemma mul_compare_pos n m p : 0 < p -> (n * p ?= m * p) = (n ?= m).
Proof. intros Hp. symmetry. apply Zmult_compare_compat_r. lia. Qed.

Lemma scaled_lt m1 e1 m2 e2 :
  -1074 <= e1 -> Zpos m1 < 2 ^ 53 -> 2 ^ 52 <= Zpos m2 -> e1 < e2 ->
  Zpos m1 * 2 ^ (e1 + 1074) < Zpos m2 * 2 ^ (e2 + 1074).
Proof.
  intros He1 Hm1 Hm2 Hlt.
  replace (e2 + 1074) with ((e2 - e1) + (e1 + 1074)) by lia.
  rewrite (Z.pow_add_r 2 (e2 - e1) (e1 + 1074)) by lia.
  assert (Ha : 0 < 2 ^ (e1 + 1074)) by (apply Z.pow_pos_nonneg; lia).
  assert (Hb : 2 ^ 1 <= 2 ^ (e2 - e1)) by (apply Z.pow_le_mono_r; lia).
  rewrite Z.pow_1_r in Hb.
  replace (2 ^ 53) with (2 * 2 ^ 52) in Hm1 by reflexivity.
  set (P := 2 ^ 52) in *. set (A := 2 ^ (e1 + 1074)) in *.
  set (B := 2 ^ (e2 - e1)) in *. clearbody P A B.
  assert (Hm : 2 * Zpos m2 <= B * Zpos m2)
    by (apply Z.mul_le_mono_nonneg_r; lia).
  rewrite Z.mul_assoc. apply Z.mul_lt_mono_pos_r; lia.
Qed.

Lemma finite_compare m1 e1 m2 e2 :
  valid_binary F64.prec F64.emax (S754_finite false m1 e1) = true ->
  valid_binary F64.prec F64.emax (S754_finite false m2 e2) = true ->
  match e1 ?= e2 with
  | Lt => Lt
  | Gt => Gt
  | Eq => Pos.compare_cont Eq m1 m2
  end
  = (Zpos m1 * 2 ^ (e1 + 1074) ?= Zpos m2 * 2 ^ (e2 + 1074)).
Proof.
  intros (He1 & Hhi1 & Hlo1)%valid_finite (He2 & Hhi2 & Hlo2)%valid_finite.
  destruct (Z.compare_spec e1 e2) as [-> | Hlt | Hgt]; symmetry.
  - rewrite mul_compare_pos by (apply Z.pow_pos_nonneg; lia).
    reflexivity.
  - apply Z.compare_lt_iff, scaled_lt; auto with lia.
  - apply Z.compare_gt_iff, scaled_lt; auto with lia.
Qed.

Lemma ext_compare_antisym a b : ext_compare a b = CompOpp (ext_compare b a).
Proof. destruct a, b; simpl; try done. apply Z.compare_antisym. Qed.

Lemma valid_sign s s' m e :
  valid_binary F64.prec F64.emax (S754_finite s m e) = true ->
  valid_binary F64.prec F64.emax (S754_finite s' m e) = true.
Proof. done. Qed.

Lemma SFcompare_rank f1 f2 :
  valid_binary F64.prec F64.emax f1 = true ->
  valid_binary F64.prec F64.emax f2 = true ->
  SFcompare f1 f2
  = match float_rank f1, float_rank f2 with
    | Some x, Some y => Some (ext_compare x y)
    | _, _ => None
    end.
Proof.
  intros Hv1 Hv2.
  destruct f1 as [s1|s1| |s1 m1 e1], f2 as [s2|s2| |s2 m2 e2];
    try reflexivity;
    try (destruct s1; reflexivity); try (destruct s2; reflexivity);
    try (destruct s1, s2; reflexivity).
  - (* zero against finite *)
    apply valid_finite in Hv2 as (He2 & _).
    assert (Hp : 0 < 2 ^ (e2 + 1074)) by (apply Z.pow_pos_nonneg; lia).
    unfold SFcompare, float_rank, ext_compare, cond_Zopp. f_equal.
    destruct s2; cbv beta iota; symmetry.
    + apply Z.compare_gt_iff. nia.
    + apply Z.compare_lt_iff. nia.
  - (* finite against zero *)
    apply valid_finite in Hv1 as (He1 & _).
    assert (Hp : 0 < 2 ^ (e1 + 1074)) by (apply Z.pow_pos_nonneg; lia).
    unfold SFcompare, float_rank, ext_compare, cond_Zopp. f_equal.
    destruct s1; cbv beta iota; symmetry.
    + apply Z.compare_lt_iff. nia.
    + apply Z.compare_gt_iff. nia.
  - (* finite against finite *)
    pose proof (finite_compare m1 e1 m2 e2 (valid_sign _ _ _ _ Hv1)
                  (valid_sign _ _ _ _ Hv2)) as Hpos.
    pose proof (finite_compare m2 e2 m1 e1 (valid_sign _ _ _ _ Hv2)
                  (valid_sign _ _ _ _ Hv1)) as Hneg.
    apply valid_finite in Hv1 as (He1 & _).
    apply valid_finite in Hv2 as (He2 & _).
    assert (Hp1 : 0 < 2 ^ (e1 + 1074)) by (apply Z.pow_pos_nonneg; lia).
    assert (Hp2 : 0 < 2 ^ (e2 + 1074)) by (apply Z.pow_pos_nonneg; lia).
    unfold SFcompare, float_rank, ext_compare. f_equal.
    destruct s1, s2; unfold cond_Zopp.
    + rewrite !Z.mul_opp_l, Z.compare_opp, <- Hneg.
      rewrite (Z.compare_antisym e1 e2).
      destruct (e1 ?= e2); simpl; try done.
      change (Pos.compare_cont Eq m2 m1) with (Pos.compare m2 m1).
      change (Pos.compare_cont Eq m1 m2) with (Pos.compare m1 m2).
      by rewrite (Pos.compare_antisym m1 m2).
    + symmetry. apply Z.compare_lt_iff. nia.
    + symmetry. apply Z.compare_gt_iff. nia.
    + exact Hpos.
Qed.

Lemma Z_compare_float_rank z f :
  valid_binary F64.prec F64.emax f = true ->
  Z_compare_float z f
  = match float_rank f with
    | Some y => Some (ext_compare (Fin (z * 2 ^ 1074)) y)
    | None => None
    end.
Proof.
  intros Hv.
  destruct f as [s|s| |s m e]; [|destruct s; reflexivity|reflexivity|].
  - unfold Z_compare_float, float_rank, ext_compare. f_equal. symmetry.
    change 0 with (0 * 2 ^ 1074) at 1.
    by apply mul_compare_pos.
  - apply valid_finite in Hv as (He & _).
    assert (Hp : 0 < 2 ^ (e + 1074)) by (apply Z.pow_pos_nonneg; lia).
    unfold float_rank, ext_compare.
    destruct e as [|p|p]; unfold Z_compare_float; f_equal.
    + rewrite Z.pow_0_r, Z.mul_1_r. symmetry.
      by apply mul_compare_pos.
    + rewrite Z.pow_add_r by lia. rewrite Z.mul_assoc. symmetry.
      by apply mul_compare_pos.
    + replace (2 ^ 1074) with (2 ^ Zpos p * 2 ^ (Zneg p + 1074)).
      * rewrite Z.mul_assoc. symmetry. by apply mul_compare_pos.
      * rewrite <- Z.pow_add_r by lia. f_equal. lia.
Qed.

Lemma num_lt_rank a b :
  is_binary64 a -> is_binary64 b ->
  num_lt a b
  = match rank a, rank b with
    | Some x, Some y =>
        match ext_compare x y with
        | Lt => true
        | _ => false
        end
    | _, _ => false
    end.
Proof.
  intros Ha Hb. destruct a as [x|x], b as [y|y]; simpl in Ha, Hb.
  - unfold num_lt, rank, ext_compare.
    rewrite mul_compare_pos by done.
    unfold Z.ltb. by destruct (int_val x ?= int_val y).
  - unfold num_lt, rank. rewrite (Z_compare_float_rank _ _ Hb).
    by destruct (float_rank y).
  - unfold num_lt, rank. rewrite (Z_compare_float_rank _ _ Ha).
    destruct (float_rank x) as [r|]; [|done].
    rewrite (ext_compare_antisym r).
    by destruct (ext_compare (Fin (int_val y * 2 ^ 1074)) r).
  - unfold num_lt, rank, F64.ltb, SFltb.
    rewrite (SFcompare_rank _ _ Ha Hb).
    by destruct (float_rank x), (float_rank y).
Qed.

Lemma ext_compare_refl x : ext_compare x x = Eq.
Proof. destruct x; simpl; try done. apply Z.compare_refl. Qed.

Lemma ext_compare_trans x y z :
  ext_compare x y = Lt -> ext_compare y z = Lt -> ext_compare x z = Lt.
Proof.
  destruct x, y, z; simpl; try done.
  rewrite !Z.compare_lt_iff. lia.
Qed.

Lemma num_lt_irrefl a : is_binary64 a -> num_lt a a = false.
Proof.
  intros Ha. rewrite (num_lt_rank _ _ Ha Ha).
  destruct (rank a) as [x|]; [|done]. by rewrite ext_compare_refl.
Qed.

Lemma num_lt_trans a b c :
  is_binary64 a -> is_binary64 b -> is_binary64 c ->
  num_lt a b = true -> num_lt b c = true -> num_lt a c = true.
Proof.
  intros Ha Hb Hc.
  rewrite (num_lt_rank _ _ Ha Hb), (num_lt_rank _ _ Hb Hc),
    (num_lt_rank _ _ Ha Hc).
  destruct (rank a) as [x|], (rank b) as [y|], (rank c) as [z|]; try done.
  destruct (ext_compare x y) eqn:Hxy; try done.
  destruct (ext_compare y z) eqn:Hyz; try done.
  by rewrite (ext_compare_trans _ _ _ Hxy Hyz).
Qed.

Lemma fold_min_spec rest : forall seen m,
  Forall is_binary64 seen -> Forall is_binary64 rest ->
  m ∈ seen -> (forall q, q ∈ seen -> num_lt q m = false) ->
  py_min_list m rest ∈ seen ++ rest
  /\ forall q, q ∈ seen ++ rest -> num_lt q (py_min_list m rest) = false.
Proof.
  unfold py_min_list.
  induction rest as [|item rest IH]; intros seen m Hseen Hrest Hm Hleast.
  { rewrite app_nil_r. by split. }
  apply Forall_cons in Hrest as [Hitem Hrest].
  replace (seen ++ item :: rest) with ((seen ++ [item]) ++ rest)
    by by rewrite <- app_assoc.
  assert (Hseen' : Forall is_binary64 (seen ++ [item])).
  { apply Forall_app. split; [done|]. by apply Forall_singleton. }
  simpl. destruct (num_lt item m) eqn:Hlt; apply IH; try done.
  - apply elem_of_app. right. by apply list_elem_of_singleton.
  - intros q [Hq | ->%list_elem_of_singleton]%elem_of_app.
    + destruct (num_lt q item) eqn:Hqi; [|done].
      rewrite <- (Hleast q Hq). symmetry.
      apply (num_lt_trans q item m); try done.
      * by eapply Forall_forall in Hseen.
      * by eapply Forall_forall in Hseen.
    + by apply num_lt_irrefl.
  - apply elem_of_app. by left.
  - intros q [Hq | ->%list_elem_of_singleton]%elem_of_app; auto.
Qed.

Lemma fold_max_spec rest : forall seen m,
  Forall is_binary64 seen -> Forall is_binary64 rest ->
  m ∈ seen -> (forall q, q ∈ seen -> num_lt m q = false) ->
  py_max_list m rest ∈ seen ++ rest
  /\ forall q, q ∈ seen ++ rest -> num_lt (py_max_list m rest) q = false.
Proof.
  unfold py_max_list.
  induction rest as [|item rest IH]; intros seen m Hseen Hrest Hm Hmost.
  { rewrite app_nil_r. by split. }
  apply Forall_cons in Hrest as [Hitem Hrest].
  replace (seen ++ item :: rest) with ((seen ++ [item]) ++ rest)
    by by rewrite <- app_assoc.
  assert (Hseen' : Forall is_binary64 (seen ++ [item])).
  { apply Forall_app. split; [done|]. by apply Forall_singleton. }
  simpl. destruct (num_lt m item) eqn:Hlt; apply IH; try done.
  - apply elem_of_app. right. by apply list_elem_of_singleton.
  - intros q [Hq | ->%list_elem_of_singleton]%elem_of_app.
    + destruct (num_lt item q) eqn:Hiq; [|done].
      rewrite <- (Hmost q Hq). symmetry.
      apply (num_lt_trans m item q); try done.
      * by eapply Forall_forall in Hseen.
      * by eapply Forall_forall in Hseen.
    + by apply num_lt_irrefl.
  - apply elem_of_app. by left.
  - intros q [Hq | ->%list_elem_of_singleton]%elem_of_app; auto.
Qed.

Lemma py_min_list_least p ps :
  Forall is_binary64 (p :: ps) ->
  py_min_list p ps ∈ p :: ps
  /\ forall q, q ∈ p :: ps -> num_lt q (py_min_list p ps) = false.
Proof.
  intros [Hp Hps]%Forall_cons.
  apply (fold_min_spec ps [p] p); try done.
  - by apply Forall_singleton.
  - by apply list_elem_of_singleton.
  - intros q ->%list_elem_of_singleton. by apply num_lt_irrefl.
Qed.

Lemma py_max_list_most p ps :
  Forall is_binary64 (p :: ps) ->
  py_max_list p ps ∈ p :: ps
  /\ forall q, q ∈ p :: ps -> num_lt (py_max_list p ps) q = false.
Proof.
  intros [Hp Hps]%Forall_cons.
  apply (fold_max_spec ps [p] p); try done.
  - by apply Forall_singleton.
  - by apply list_elem_of_singleton.
  - intros q ->%list_elem_of_singleton. by apply num_lt_irrefl.
Qed.

Lemma num_to_float_outcome a :
  (exists f, num_to_float a = Ok f)
  \/ (num_to_float a = Raise OverflowError /\ too_large a).
Proof.
  destruct a as [i|f]; [|left; by exists f].
  unfold num_to_float.
  destruct (F64.of_Z (int_val i)) as [s|s| |s m e] eqn:Hf;
    try (left; by eexists).
  right. split; [done|]. by exists i, s.
Qed.

Lemma too_large_raises a : too_large a -> num_to_float a = Raise OverflowError.
Proof. intros (i & s & -> & Hf). unfold num_to_float. by rewrite Hf. Qed.

Lemma num_sub_raises l h e :
  num_sub l h = Raise e
  <-> e = OverflowError /\ ~ same_kind l h /\ (too_large l \/ too_large h).
Proof.
  destruct l as [x|x], h as [y|y].
  - split; [done|]. intros (_ & Hk & _). by destruct Hk.
  - unfold num_sub.
    destruct (num_to_float_outcome (NInt x)) as [[f Hf] | [Hf Hbig]];
      rewrite Hf.
    + rewrite bind_Ok. split; [done|].
      intros (_ & _ & [Hbig | (i & s & [=] & _)]).
      apply too_large_raises in Hbig. congruence.
    + rewrite bind_Raise. split; [|by intros (-> & _)].
      intros [= <-]. split; [done|]. split; [by intros []|by left].
  - unfold num_sub. change (num_to_float (NFloat x)) with (Ok x).
    rewrite bind_Ok.
    destruct (num_to_float_outcome (NInt y)) as [[f Hf] | [Hf Hbig]];
      rewrite Hf.
    + rewrite bind_Ok. split; [done|].
      intros (_ & _ & [(i & s & [=] & _) | Hbig]).
      apply too_large_raises in Hbig. congruence.
    + rewrite bind_Raise. split; [|by intros (-> & _)].
      intros [= <-]. split; [done|]. split; [by intros []|by right].
  - split; [done|]. intros (_ & Hk & _). by destruct Hk.
Qed.

(** When [get_jita_price] has both order lists and returns, the two
    counts are the lengths of the lists as received, whatever their
    entries are.  The lowest sell price is absent exactly when no sell
    order is a mapping with a numeric price; otherwise it is one of those
    prices and none of them is below it.  The highest buy price likewise
    is one of the numeric buy prices with none of them above it, and is
    absent exactly when there is none.  The spread is absent exactly when
    one of the two is.  Floats are binary64 data; a NaN among them is
    below and above nothing. *)
Theorem jita_summary_extremes type_id sell_orders buy_orders r :
  Forall is_binary64 (order_prices sell_orders) ->
  Forall is_binary64 (order_prices buy_orders) ->
  jita_summary type_id sell_orders buy_orders = Ok r ->
  sell_order_count r = length sell_orders
  /\ buy_order_count r = length buy_orders
  /\ (lowest_sell r = None <-> order_prices sell_orders = [])
  /\ (highest_buy r = None <-> order_prices buy_orders = [])
  /\ (forall p, lowest_sell r = Some p ->
        p ∈ order_prices sell_orders
        /\ forall q, q ∈ order_prices sell_orders -> num_lt q p = false)
  /\ (forall p, highest_buy r = Some p ->
        p ∈ order_prices buy_orders
        /\ forall q, q ∈ order_prices buy_orders -> num_lt p q = false)
  /\ (spread r = None <-> lowest_sell r = None \/ highest_buy r = None).
Proof.
  unfold jita_summary. intros Hsell Hbuy.
  destruct (order_prices sell_orders) as [|p ps] eqn:Hs;
    destruct (order_prices buy_orders) as [|q qs] eqn:Hb.
  - rewrite bind_Ok. intros [= <-]. cbn.
    repeat apply conj; try done; auto.
  - rewrite bind_Ok. intros [= <-]. cbn.
    pose proof (py_max_list_most q qs Hbuy) as [Hin Hmost].
    repeat apply conj; try done; auto.
    by intros ? [= <-].
  - rewrite bind_Ok. intros [= <-]. cbn.
    pose proof (py_min_list_least p ps Hsell) as [Hin Hleast].
    repeat apply conj; try done; auto.
    by intros ? [= <-].
  - destruct (num_sub (py_min_list p ps) (py_max_list q qs)) as [d|e];
      [|by rewrite !bind_Raise].
    rewrite !bind_Ok. intros [= <-]. cbn.
    pose proof (py_min_list_least p ps Hsell) as [Hin Hleast].
    pose proof (py_max_list_most q qs Hbuy) as [Hin' Hmost].
    repeat apply conj; try done; try by intros ? [= <-].
    by intros [|].
Qed.

(** From the two order lists on, [get_jita_price] fails in one way only:
    with [OverflowError], when the lowest sell price and the highest buy
    price are an [int] and a float and the [int] is too large for a
    float.  With prices that are all floats, or all [int]s, it returns. *)
Theorem jita_summary_raises type_id sell_orders buy_orders e :
  jita_summary type_id sell_orders buy_orders = Raise e
  <-> e = OverflowError
      /\ exists p ps q qs,
           order_prices sell_orders = p :: ps
           /\ order_prices buy_orders = q :: qs
           /\ ~ same_kind (py_min_list p ps) (py_max_list q qs)
           /\ (too_large (py_min_list p ps) \/ too_large (py_max_list q qs)).
Proof.
  unfold jita_summary.
  destruct (order_prices sell_orders) as [|p ps] eqn:Hs;
    destruct (order_prices buy_orders) as [|q qs] eqn:Hb;
    try (rewrite bind_Ok; split; [done|];
         by intros (_ & ? & ? & ? & ? & ? & ? & _)).
  destruct (num_sub (py_min_list p ps) (py_max_list q qs)) as [d|e'] eqn:Hd.
  - rewrite !bind_Ok. split; [done|].
    intros (-> & p' & ps' & q' & qs' & [= <- <-] & [= <- <-] & Hk & Hbig).
    assert (Hr : num_sub (py_min_list p ps) (py_max_list q qs)
                 = Raise OverflowError) by by apply num_sub_raises.
    congruence.
  - rewrite !bind_Raise. apply num_sub_raises in Hd as (-> & Hk & Hbig).
    split.
    + intros [= <-]. split; [done|]. by exists p, ps, q, qs.
    + by intros (-> & _).
Qed.

End MarketFacts.

Section MarketRequests.

Variable int_of_str : string -> result Z.

Lemma all_pages_sent endpoint token params w items w' :
  esi_request_all_pages int_of_str endpoint token params w = (Value items, w')
  -> exists pages,
       sent w' = sent w ++ map (page_request endpoint token params) (1 :: pages).
Proof.
  unfold esi_request_all_pages. intros Hrun.
  apply io_bind_value in Hrun as ([first headers] & w1 & Hreq & Hrun).
  apply esi_request_value in Hreq as (rest & Hscript & ->).
  apply io_bind_value in Hrun as (total & w2 & Htotal & Hrun).
  apply lift_value in Htotal as [Htotal ->].
  destruct first as [| | | | |first_items|];
    try (injection Hrun as <- <-; by exists []).
  apply fetch_pages_value in Hrun as (later & _ & _ & Hsent & _).
  exists (seqZ 2 (total - 1)). simpl in *. by rewrite Hsent, <- app_assoc.
Qed.

(** A successful [get_jita_price] is two listings run one after the
    other on the orders of region 10000002, without a token: first the
    sell orders of the type, then, on what the service answers next, its
    buy orders; the result is the summary of exactly the two lists these
    listings return.  What it has sent are the page requests of the first
    listing, from page 1 on, followed by those of the second, from page 1
    on, and nothing else. *)
Theorem get_jita_price_requests type_id w r w' :
  get_jita_price int_of_str type_id w = (Value r, w') ->
  exists sell_orders w1 buy_orders sell_pages buy_pages,
    esi_request_all_pages int_of_str "/markets/10000002/orders/" None
      (Some [ ("type_id"%string, PInt type_id);
              ("order_type"%string, PStr "sell") ]) w
    = (Value sell_orders, w1)
    /\ esi_request_all_pages int_of_str "/markets/10000002/orders/" None
         (Some [ ("type_id"%string, PInt type_id);
                 ("order_type"%string, PStr "buy") ]) w1
       = (Value buy_orders, w')
    /\ jita_summary type_id sell_orders buy_orders = Ok r
    /\ sent w1 = sent w ++ map (orders_page type_id "sell") (1 :: sell_pages)
    /\ sent w'
       = sent w
         ++ map (orders_page type_id "sell") (1 :: sell_pages)
         ++ map (orders_page type_id "buy") (1 :: buy_pages).
Proof.
  unfold get_jita_price. intros Hrun.
  apply io_bind_value in Hrun as (sell_orders & w1 & Hsell & Hrun).
  apply io_bind_value in Hrun as (buy_orders & w2 & Hbuy & Hrun).
  apply lift_value in Hrun as [Hsum ->].
  destruct (all_pages_sent _ _ _ _ _ _ Hsell) as (sell_pages & Hs1).
  destruct (all_pages_sent _ _ _ _ _ _ Hbuy) as (buy_pages & Hs2).
  exists sell_orders, w1, buy_orders, sell_pages, buy_pages.
  split; [exact Hsell|]. split; [exact Hbuy|]. split; [exact Hsum|].
  split; [exact Hs1|]. rewrite Hs2, Hs1, <- app_assoc. done.
Qed.

End MarketRequests.

Section StatusFetchFacts.

Context `{PyRuntime}.

Variable int_of_str : string -> result Z.

Lemma pretty_N_go_head x : forall s c rest,
  pretty_N_go x s = String c rest ->
  (exists n, c = pretty_N_char n) \/ exists rest', s = String c rest'.
Proof.
  induction (N.lt_wf_0 x) as [x _ IH]; intros s c rest.
  assert (x = 0 \/ 0 < x)%N as [->|Hpos] by lia.
  - rewrite pretty_N_go_0. eauto.
  - rewrite pretty_N_go_step by lia. intros Hgo.
    apply IH in Hgo as [? | (rest' & [= <- _])]; [auto | eauto |].
    apply N.div_lt; lia.
Qed.

Lemma pretty_N_char_not_N n : pretty_N_char n <> "N"%char.
Proof. unfold pretty_N_char. by repeat case_match. Qed.

Lemma pretty_Z_not_None (z : Z) : pretty z <> "None"%string.
Proof.
  assert (Hpos : forall p : positive, pretty p <> "None"%string).
  { intros p Hp. unfold pretty, pretty_positive, pretty, pretty_N in Hp.
    rewrite decide_False in Hp by done.
    apply pretty_N_go_head in Hp as [[n Hn] | (? & ?)]; [|done].
    by destruct (pretty_N_char_not_N n). }
  destruct z as [|p|p]; [done | apply Hpos | done].
Qed.

Lemma pyint_str_not_None i : pyint_str i <> "None"%string.
Proof. destruct i as [z|[]]; [apply pretty_Z_not_None | done..]. Qed.

Lemma py_str_of_pyint i : py_str (of_pyint i) = pyint_str i.
Proof. by destruct i as [z|[]]. Qed.

Lemma single_request_value req w d w' :
  (esi_request req ≫= fun '(result, _) => mret (dict_or_empty result)) w
  = (Value d, w')
  -> exists body headers,
       script w = Reply body headers :: script w'
       /\ sent w' = sent w ++ [req]
       /\ d = dict_or_empty body.
Proof.
  intros Hrun. apply io_bind_value in Hrun as ([body headers] & w1 & Hreq & Hret).
  apply esi_request_value in Hreq as (rest & Hscript & ->).
  injection Hret as <- <-. exists body, headers. by rewrite Hscript.
Qed.

Lemma fetch_details_value character_id token planets :
  forall details w details' w',
    fetch_details character_id token planets details w = (Value details', w') ->
    sent w' = sent w ++ flat_map (planet_requests character_id token) planets
    /\ (exists taken,
          script w = map reply_of taken ++ script w'
          /\ length taken
             = length (flat_map (planet_requests character_id token) planets))
    /\ forall k,
         is_Some (details' !! k)
         <-> is_Some (details !! k)
             \/ exists p i,
                  PDict p ∈ planets
                  /\ as_int (dict_get "planet_id" p) = Some i
                  /\ pyint_str i = k.
Proof.
  induction planets as [|planet planets IH]; intros details w details' w'.
  { simpl. intros [= <- <-]. rewrite app_nil_r. split; [done|].
    split; [by exists []|]. intros k. split; [auto|].
    intros [? | (p & i & ?%elem_of_nil & _)]; done. }
  assert (Hskip :
    planet_requests character_id token planet = [] ->
    (forall p i, planet = PDict p ->
                 as_int (dict_get "planet_id" p) = Some i -> False) ->
    fetch_details character_id token planets details w = (Value details', w') ->
    sent w'
    = sent w ++ flat_map (planet_requests character_id token) (planet :: planets)
    /\ (exists taken,
          script w = map reply_of taken ++ script w'
          /\ length taken
             = length (flat_map (planet_requests character_id token)
                         (planet :: planets)))
    /\ forall k,
         is_Some (details' !! k)
         <-> is_Some (details !! k)
             \/ exists p i,
                  PDict p ∈ planet :: planets
                  /\ as_int (dict_get "planet_id" p) = Some i
                  /\ pyint_str i = k).
  { intros Hreq Hno Hrun. apply IH in Hrun as (Hsent & Htaken & Hkeys).
    simpl. rewrite Hreq. simpl. split; [done|]. split; [done|].
    intros k. rewrite Hkeys. split; intros [? | (p & i & Hp & Hi & Hk)]; auto.
    - right. exists p, i. split; [by right | done].
    - apply elem_of_cons in Hp as [Heq | Hp];
        [by destruct (Hno p i (eq_sym Heq))|].
      right. by exists p, i. }
  destruct planet as [| | | | | |p]; try (by apply Hskip).
  destruct (as_int (dict_get "planet_id" p)) as [i|] eqn:Hi.
  2:{ intros Hrun. apply Hskip;
        [simpl; by rewrite Hi | intros ? ? [= <-]; congruence|].
      simpl in Hrun. by rewrite Hi in Hrun. }
  simpl. rewrite Hi. intros Hrun.
  apply io_bind_value in Hrun as (detail & w1 & Hdetail & Hrun).
  apply single_request_value in Hdetail as (b1 & h1 & Hs1 & Hsent1 & ->).
  apply io_bind_value in Hrun as (meta & w2 & Hmeta & Hrun).
  apply single_request_value in Hmeta as (b2 & h2 & Hs2 & Hsent2 & ->).
  apply IH in Hrun as (Hsent & (taken & Hs & Hlen) & Hkeys).
  split; [|split].
  - rewrite Hsent, Hsent2, Hsent1, <- !app_assoc. done.
  - exists ((b1, h1) :: (b2, h2) :: taken). simpl.
    rewrite Hs1, Hs2, Hs. split; [done | by rewrite Hlen].
  - intros k. rewrite Hkeys, lookup_insert_is_Some'.
    split.
    + intros [[<- | Hk] | (p' & i' & Hp & Hi' & Hk)]; auto.
      * right. exists p, i. split; [left | done].
      * right. exists p', i'. split; [by right | done].
    + intros [Hk | (p' & i' & [[= <-] | Hp]%elem_of_cons & Hi' & Hk)]; auto.
      * left. left. congruence.
      * right. by exists p', i'.
Qed.

Lemma details_round_trip (details : gmap string pydict) :
  build_details_map (PDict (PDict <$> details)) = details.
Proof.
  unfold build_details_map. apply map_eq. intros k.
  rewrite lookup_omap, lookup_fmap. by destruct (details !! k).
Qed.

Lemma status_loop_records now details_map planets rs :
  status_loop now details_map planets = Ok rs ->
  Forall2 (fun p r => colony_status now details_map p = Ok r)
    (omap as_dict planets) rs.
Proof.
  revert rs. induction planets as [|v planets IH]; intros rs; simpl.
  { intros [= <-]. constructor. }
  destruct v as [| | | | | |p]; simpl; try apply IH.
  destruct (colony_status now details_map p) as [r|] eqn:Hr; [|done].
  rewrite bind_Ok.
  destruct (status_loop now details_map planets) as [rs'|]; [|done].
  rewrite bind_Ok. intros [= <-]. constructor; [done | by apply IH].
Qed.

Lemma colony_status_unknown now details_map planet :
  dict_get "planet_id" planet = PNone ->
  details_map !! "None" = None ->
  colony_status now details_map planet = Ok (empty_report planet).
Proof.
  intros Hid Hnone. unfold colony_status, empty_report.
  rewrite Hid. simpl. rewrite Hnone. reflexivity.
Qed.

(** After listing the planets, a successful [get_pi_status] has sent two
    requests for each entry of the list that is a mapping with an [int]
    [planet_id], in the order of the list: the colony detail with the
    access token, then the public planet lookup without token and with
    [allow_404]; it has sent none for the other entries, and it has
    consumed one reply for each request. *)
Theorem get_pi_status_requests now character_id token w rs w' :
  get_pi_status int_of_str now character_id token w = (Value rs, w') ->
  exists planets w1 taken,
    get_pi_planets int_of_str character_id token w = (Value planets, w1)
    /\ sent w'
       = sent w1 ++ flat_map (planet_requests character_id token) planets
    /\ script w1 = map reply_of taken ++ script w'
    /\ length taken
       = length (flat_map (planet_requests character_id token) planets).
Proof.
  unfold get_pi_status. intros Hrun.
  apply io_bind_value in Hrun as (planets & w1 & Hplanets & Hrun).
  apply io_bind_value in Hrun as (details & w2 & Hdetails & Hrun).
  apply lift_value in Hrun as [_ ->].
  apply fetch_details_value in Hdetails as (Hsent & (taken & Hs & Hlen) & _).
  by exists planets, w1, taken.
Qed.

(** The report of a successful [get_pi_status] has one record per entry of
    the planet list that is a mapping, in order, each computed by the
    status engine from the details fetched in this run.  An entry with an
    [int] [planet_id] has a detail of its own under [str(planet_id)]; an
    entry without identifier never picks up a detail and is reported as
    the empty colony [Planet None]. *)
Theorem get_pi_status_report now character_id token w rs w' :
  get_pi_status int_of_str now character_id token w = (Value rs, w') ->
  exists planets w1 details,
    get_pi_planets int_of_str character_id token w = (Value planets, w1)
    /\ fetch_details character_id token planets ∅ w1 = (Value details, w')
    /\ Forall2
         (fun p r =>
            colony_status now details p = Ok r
            /\ (forall i, as_int (dict_get "planet_id" p) = Some i ->
                          is_Some (details !! pyint_str i)
                          /\ detail_of details p
                             = default ∅ (details !! pyint_str i))
            /\ (dict_get "planet_id" p = PNone -> r = empty_report p))
         (omap as_dict planets) rs.
Proof.
  unfold get_pi_status. intros Hrun.
  apply io_bind_value in Hrun as (planets & w1 & Hplanets & Hrun).
  apply io_bind_value in Hrun as (details & w2 & Hdetails & Hrun).
  apply lift_value in Hrun as [Hparse ->].
  exists planets, w1, details. split; [done|]. split; [done|].
  apply fetch_details_value in Hdetails as (_ & _ & Hkeys).
  unfold parse_pi_status in Hparse. cbn [py_iter] in Hparse.
  rewrite bind_Ok, details_round_trip in Hparse.
  apply status_loop_records in Hparse.
  assert (Hin : Forall (fun p => PDict p ∈ planets) (omap as_dict planets)).
  { apply Forall_forall. intros p Hp.
    apply list_elem_of_omap in Hp as (v & Hv & Hd).
    destruct v; try done. by injection Hd as <-. }
  revert Hin. induction Hparse as [|p r ps rs' Hr Hrest IH];
    intros Hin; [constructor|].
  apply Forall_cons in Hin as [Hp Hps].
  constructor; [|by apply IH]. split; [done|]. split.
  - intros i Hi.
    assert (Hsome : is_Some (details !! pyint_str i)).
    { apply Hkeys. right. by exists p, i. }
    split; [done|]. unfold detail_of.
    destruct (dict_get "planet_id" p) as [|b|z| | | |] eqn:Hid; try done;
      injection Hi as <-; done.
  - intros Hid.
    assert (Hnone : details !! "None" = None).
    { apply eq_None_not_Some. intros Hsome. apply Hkeys in Hsome
        as [Hsome | (p' & i & _ & _ & Hstr)].
      - rewrite lookup_empty in Hsome. by destruct Hsome.
      - by destruct (pyint_str_not_None i). }
    rewrite (colony_status_unknown now details p Hid Hnone) in Hr.
    by injection Hr as <-.
Qed.

End StatusFetchFacts.

Module Examples.

Import Samples.

#[local] Existing Instance RefRuntime.runtime.

(** The worked examples of the specification. *)

Example expired_extractor_colony :
  parse_pi_status noon (PList [planet 7])
    (details "7" [extractor_pin (PStr "2024-01-01T11:00:00Z")] [])
  = Ok [ {| planet_id := PInt 7;
            planet_name := PStr "Planet 7";
            planet_type := PStr "barren";
            solar_system_id := PInt 30000142;
            character := PStr "unknown";
            extractors := [entry_1h_ago];
            storage_fill_pct := None;
            factories := [];
            needs_attention := true;
            action_required := "Extractor already expired" |} ].
Proof. reflexivity. Qed.

Example launchpad_at_90_percent :
  parse_pi_status noon (PList [planet 7])
    (details "7" [storage_pin (PInt 2544) (PInt 9000)] [])
  = Ok [ {| planet_id := PInt 7;
            planet_name := PStr "Planet 7";
            planet_type := PStr "barren";
            solar_system_id := PInt 30000142;
            character := PStr "unknown";
            extractors := [];
            storage_fill_pct := Some f90;
            factories := [];
            needs_attention := true;
            action_required := "Storage/Launchpad at 90.0%" |} ].
Proof. reflexivity. Qed.

Example factory_with_two_inputs :
  parse_pi_status noon (PList [planet 7])
    (details "7" [factory_pin 5] [route_water; route_bacteria; route_biofuels])
  = Ok [ {| planet_id := PInt 7;
            planet_name := PStr "Planet 7";
            planet_type := PStr "barren";
            solar_system_id := PInt 30000142;
            character := PStr "unknown";
            extractors := [];
            storage_fill_pct := None;
            factories :=
              [ {| input := "Bacteria, Aqueous Liquids";
                   output := "Biofuels";
                   schematic := "Schematic 121" |} ];
            needs_attention := false;
            action_required := "none" |} ].
Proof. reflexivity. Qed.

(** Rounding of the remaining time near its boundaries. *)

Example hours_at_the_instant : hours_until noon noon = S754_zero false.
Proof. reflexivity. Qed.

Example hours_18s_ahead :
  hours_until (noon + 18000000) noon = F64.hundredths false 1.
Proof. reflexivity. Qed.

Example hours_17s_ahead : hours_until (noon + 17000000) noon = S754_zero false.
Proof. reflexivity. Qed.

Example hours_six_hours_ahead :
  hours_until (noon + 6 * 3600000000) noon = F64.c6.
Proof. reflexivity. Qed.




Lemma remaining_hours_rounded_witness :
  extractor_of_pin noon (extractor_pin (PStr "2024-01-01T11:00:00Z"))
  = Ok (Some entry_1h_ago)
  /\ (hours_remaining entry_1h_ago = None <-> status entry_1h_ago = Idle).
Proof.
  assert (He : extractor_of_pin noon (PDict pin_1h_ago)
               = Ok (Some entry_1h_ago)) by reflexivity.
  split; [exact He|].
  by destruct (remaining_hours_rounded noon pin_1h_ago entry_1h_ago He)
    as (Hnull & _).
Defined.

(** C4, counterexample.  A launchpad whose type is in the capacity table
    but whose [contents] is not a list: the fill percentage is null. *)
Lemma known_capacity_pin_can_give_null :
  capacity_of keyed_contents_pin = Some 10000
  /\ estimate_storage_fill_pct (PList [keyed_contents_pin]) = Ok None.
Proof. split; reflexivity. Qed.

Lemma storage_fill_is_clamped_maximum_witness :
  estimate_storage_fill_pct (PList [storage_pin (PInt 2544) (PInt 9000)])
  = Ok (Some f90)
  /\ F64.leb f90 F64.c100 = true.
Proof.
  assert (He : estimate_storage_fill_pct
                 (PList [storage_pin (PInt 2544) (PInt 9000)])
               = Ok (Some f90)) by reflexivity.
  split; [exact He|].
  destruct (storage_fill_is_clamped_maximum _ _ He) as (_ & Hmax & _).
  by destruct (Hmax f90 eq_refl) as (Hle & _).
Defined.



Lemma attention_verdict_witness :
  colony_status noon busy_map planet7 = Ok busy_record
  /\ dict_fromkeys
       (concat (map extractor_attention (extractors busy_record))
        ++ storage_attention (storage_fill_pct busy_record))
     = [ "Extractor already expired"; "Storage/Launchpad at 90.0%" ]%string
  /\ (needs_attention busy_record = true
      <-> dict_fromkeys
            (concat (map extractor_attention (extractors busy_record))
             ++ storage_attention (storage_fill_pct busy_record)) <> []).
Proof.
  assert (Hr : colony_status noon busy_map planet7 = Ok busy_record)
    by reflexivity.
  split; [exact Hr|]. split; [reflexivity|].
  by destruct (attention_verdict _ _ _ _ Hr) as (_ & _ & _ & _ & _ & _ & Hflag & _).
Defined.

(** C9, counterexample.  The same planets and details, evaluated at noon
    and two hours later: the extractor due at 13:00 is [running] in the
    first report and [expired] in the second. *)
Lemma same_inputs_different_reports :
  parse_pi_status noon (PList [planet 7])
    (details "7" [extractor_pin (PStr "2024-01-01T13:00:00Z")] [])
  <> parse_pi_status (noon + 7200000000) (PList [planet 7])
       (details "7" [extractor_pin (PStr "2024-01-01T13:00:00Z")] []).
Proof. vm_compute. discriminate. Qed.

(** C10, counterexample.  A planet entry without identifier and a details
    mapping with an entry under [None] that carries a name: the display
    name is that name, not [Planet None]. *)
Lemma unnamed_colony_takes_the_detail_name :
  parse_pi_status noon (PList [PDict {[ "planet_type" := PStr "barren" ]}])
    (PDict {[ "None" := PDict {[ "_planet_name" := PStr "Ghost" ]} ]})
  = Ok [ {| planet_id := PNone;
            planet_name := PStr "Ghost";
            planet_type := PStr "barren";
            solar_system_id := PNone;
            character := PStr "unknown";
            extractors := [];
            storage_fill_pct := None;
            factories := [];
            needs_attention := false;
            action_required := "none" |} ].
Proof. reflexivity. Qed.

Lemma colony_without_identifier_witness :
  ({[ "planet_type" := PStr "barren" ]} : pydict) !! "planet_id" = None
  /\ colony_status noon busy_map {[ "planet_type" := PStr "barren" ]}
     = Ok {| planet_id := PNone;
             planet_name := PStr "Planet None";
             planet_type := PStr "barren";
             solar_system_id := PNone;
             character := PStr "unknown";
             extractors := [];
             storage_fill_pct := None;
             factories := [];
             needs_attention := false;
             action_required := "none" |}.
Proof.
  assert (Hid : ({[ "planet_type" := PStr "barren" ]} : pydict)
                  !! "planet_id" = None)
    by reflexivity.
  split; [exact Hid|].
  destruct (colony_without_identifier noon busy_map _ (or_introl Hid))
    as (_ & _ & _ & Hempty).
  by rewrite Hempty.
Defined.




Import MoreSamples.

Lemma needs_attention_iff_witness :
  colony_status noon busy_map planet7 = Ok busy_record
  /\ (needs_attention busy_record = false
      <-> action_required busy_record = "none"%string).
Proof.
  assert (Hr : colony_status noon busy_map planet7 = Ok busy_record)
    by reflexivity.
  split; [exact Hr|].
  by destruct (needs_attention_iff _ _ _ _ Hr) as [_ Hnone].
Defined.

Lemma storage_fill_order_independent_witness :
  [half_full_pin; nearly_full_pin] ≡ₚ [nearly_full_pin; half_full_pin]
  /\ estimate_storage_fill_pct (PList [half_full_pin; nearly_full_pin])
     = Ok (Some f90)
  /\ exists r',
       estimate_storage_fill_pct (PList [nearly_full_pin; half_full_pin])
       = Ok r'
       /\ (Some f90 = None <-> r' = None).
Proof.
  assert (Hperm : [half_full_pin; nearly_full_pin]
                  ≡ₚ [nearly_full_pin; half_full_pin])
    by apply Permutation_swap.
  assert (Hr : estimate_storage_fill_pct
                 (PList [half_full_pin; nearly_full_pin]) = Ok (Some f90))
    by reflexivity.
  split; [exact Hperm|]. split; [exact Hr|].
  destruct (storage_fill_order_independent _ _ _ Hperm Hr)
    as (r' & Hr' & Hnone & _).
  exists r'. split; [exact Hr' | exact Hnone].
Defined.

Lemma storage_fill_between_0_and_100_witness :
  estimate_storage_fill_pct (PList [half_full_pin; nearly_full_pin])
  = Ok (Some f90)
  /\ F64.ltb f90 F64.zero = false /\ F64.leb f90 F64.c100 = true.
Proof.
  assert (Hr : estimate_storage_fill_pct
                 (PList [half_full_pin; nearly_full_pin]) = Ok (Some f90))
    by reflexivity.
  split; [exact Hr|].
  apply (storage_fill_between_0_and_100 [half_full_pin; nearly_full_pin]);
    [|exact Hr].
  intros pin capacity items i Hpin [_ Hitems] Hi.
  apply elem_of_cons in Hpin as [-> | Hpin].
  - injection Hitems as <-. apply list_elem_of_singleton in Hi.
    injection Hi as ->. vm_compute. discriminate.
  - apply list_elem_of_singleton in Hpin as ->.
    injection Hitems as <-. apply list_elem_of_singleton in Hi.
    injection Hi as ->. vm_compute. discriminate.
Defined.

Lemma all_pages_protocol_witness :
  esi_request_all_pages RefInt.parse "/markets/10000002/orders/" None None
    paged_world
  = (Value [PInt 1; PInt 2; PInt 3],
     {| script := [];
        sent := [ page_request "/markets/10000002/orders/" None None 1;
                  page_request "/markets/10000002/orders/" None None 2 ] |})
  /\ exists first headers total later,
       script paged_world = Reply first headers :: map reply_of later ++ []
       /\ total_pages_of RefInt.parse headers = Ok total.
Proof.
  split; [reflexivity|].
  destruct (all_pages_protocol RefInt.parse "/markets/10000002/orders/"
              None None paged_world _ _ eq_refl)
    as (first & headers & total & later & Hscript & Htotal & _).
  exists first, headers, total, later. split; [exact Hscript | exact Htotal].
Defined.

Lemma get_pi_status_requests_witness :
  exists w',
    get_pi_status RefInt.parse noon 42 "secret" colony_world
    = (Value colony_report, w')
    /\ sent w'
       = [ page_request "/characters/42/planets/" (Some "secret"%string) None 1;
           detail_request 42 (IInt 7) "secret";
           universe_request (IInt 7) ].
Proof.
  eexists. split; [reflexivity|].
  destruct (get_pi_status_requests RefInt.parse noon 42 "secret"
              colony_world _ _ eq_refl)
    as (planets & w1 & taken & Hplanets & Hsent & _).
  reflexivity.
Defined.

Lemma get_pi_status_report_witness :
  exists w',
    get_pi_status RefInt.parse noon 42 "secret" colony_world
    = (Value colony_report, w')
    /\ exists planets w1 details,
         get_pi_planets RefInt.parse 42 "secret" colony_world
         = (Value planets, w1)
         /\ fetch_details 42 "secret" planets ∅ w1 = (Value details, w').
Proof.
  eexists. split; [reflexivity|].
  destruct (get_pi_status_report RefInt.parse noon 42 "secret"
              colony_world _ _ eq_refl)
    as (planets & w1 & details & Hplanets & Hdetails & _).
  exists planets, w1, details. split; [exact Hplanets | exact Hdetails].
Defined.

Lemma jita_summary_extremes_witness :
  jita_summary 34 sell_book buy_book = Ok book_summary
  /\ sell_order_count book_summary = length sell_book
  /\ forall p, lowest_sell book_summary = Some p ->
       p ∈ order_prices sell_book
       /\ forall q, q ∈ order_prices sell_book -> num_lt q p = false.
Proof.
  assert (He : jita_summary 34 sell_book buy_book = Ok book_summary)
    by reflexivity.
  assert (Hs : Forall is_binary64 (order_prices sell_book))
    by (repeat constructor).
  assert (Hb : Forall is_binary64 (order_prices buy_book))
    by (repeat constructor).
  destruct (jita_summary_extremes 34 sell_book buy_book book_summary Hs Hb He)
    as (Hcount & _ & _ & _ & Hlow & _).
  split; [exact He|]. split; [exact Hcount | exact Hlow].
Defined.

Lemma get_jita_price_requests_witness :
  get_jita_price RefInt.parse 34 market_world
  = (Value book_summary,
     {| script := [];
        sent := [ orders_page 34 "sell" 1; orders_page 34 "buy" 1 ] |})
  /\ exists sell_orders buy_orders,
       jita_summary 34 sell_orders buy_orders = Ok book_summary.
Proof.
  split; [reflexivity|].
  destruct (get_jita_price_requests RefInt.parse 34 market_world _ _ eq_refl)
    as (sell_orders & w1 & buy_orders & _ & _ & _ & _ & Hsum & _).
  exists sell_orders, buy_orders. exact Hsum.
Defined.

End Examples.
